(** * The chat data model of [api/app/models/chat.py]

    The module declares five pydantic models ([Prompt], [Message], [Code],
    [Chat], [Response]) and the enumeration [MessageType].  The classes carry
    no methods: what they do is decided by the field declarations (type,
    default, default factory) as pydantic's [BaseModel] interprets them.

    The embedding keeps the declarations one to one and gives them the
    meaning they have under pydantic 2 with the default configuration (the
    classes set no [model_config]): lax validation, unknown keys ignored,
    defaults not re-validated, instances not re-validated, every field error
    collected before the failure is raised.  The two default factories with
    an effect, [uuid4().hex] and [datetime.now], read an explicit [world].
    What the library makes of an input for [createdAt] that is neither a
    datetime object nor a text in the layout the library itself writes is
    left to a parameter, [datetime_lax]. *)

From Stdlib Require Import ZArith List Bool Lia.
From Stdlib.Strings Require Import String Ascii Byte.
Import ListNotations.

Open Scope string_scope.
Open Scope Z_scope.

(* ------------------------------------------------------------------ *)
(** ** Integers printed in a base: ['%0<w>x' % n], ['%0<w>d' % n]      *)
(* ------------------------------------------------------------------ *)

(** The digit characters of Python's [%x] and [%d] conversions. *)
Definition digit_of (d : Z) : ascii :=
  match String.get (Z.to_nat d) "0123456789abcdef" with
  | Some c => c
  | None => "0"%char
  end.

(** The [w] low digits of [n] in base [base], most significant first. *)
Fixpoint zero_padded (base : Z) (w : nat) (n : Z) : string :=
  match w with
  | O => ""
  | S w' => String (digit_of ((n / base ^ Z.of_nat w') mod base))
                   (zero_padded base w' n)
  end.

Fixpoint ndigits_fuel (fuel : nat) (base n : Z) : nat :=
  match fuel with
  | O => 1
  | S f => if n <? base then 1%nat else S (ndigits_fuel f base (n / base))
  end.

(** How many digits [n >= 0] has in base [base >= 2]. *)
Definition ndigits (base n : Z) : nat :=
  ndigits_fuel (Z.to_nat (Z.log2 n)) base n.

(** ['%0<width>x' % n] for [base = 16] and ['%0<width>d' % n] for
    [base = 10], on [n >= 0]: [width] is a minimum, a longer number is
    printed in full. *)
Definition format_int (base : Z) (width : nat) (n : Z) : string :=
  zero_padded base (Nat.max width (ndigits base n)) n.

(* ------------------------------------------------------------------ *)
(** ** [uuid4().hex]                                                    *)
(* ------------------------------------------------------------------ *)

(** [int.from_bytes(bytes)], big endian. *)
Definition int_from_bytes (bs : list byte) : Z :=
  fold_left (fun acc b => acc * 256 + Z.of_N (Byte.to_N b)) bs 0.

(** The [version is not None] branch of [UUID.__init__]: the variant and
    version bits overwrite six bits of the random number. *)
Definition UUID_set_version (int version : Z) : Z :=
  let int := Z.land int (Z.lnot (Z.shiftl 0xc000 48)) in
  let int := Z.lor int (Z.shiftl 0x8000 48) in
  let int := Z.land int (Z.lnot (Z.shiftl 0xf000 64)) in
  Z.lor int (Z.shiftl version 76).

(** [UUID(bytes=bs, version=4).hex]. *)
Definition UUID4_hex (bs : list byte) : string :=
  format_int 16 32 (UUID_set_version (int_from_bytes bs) 4).

(** The bits of the random number that survive in the identifier. *)
Definition UUID4_random_bits : Z :=
  Z.land (Z.lnot (Z.shiftl 0xc000 48)) (Z.lnot (Z.shiftl 0xf000 64)).

(** The fixed bits, once the variant and the version are written. *)
Definition UUID4_fixed_bits : Z := Z.lor (Z.shiftl 0x8000 48) (Z.shiftl 4 76).

Definition is_hex_digit (c : ascii) : bool :=
  let n := Z.of_N (N_of_ascii c) in
  ((48 <=? n) && (n <=? 57)) || ((97 <=? n) && (n <=? 102)).

(* ------------------------------------------------------------------ *)
(** ** Naive [datetime] values and their ISO 8601 text                 *)
(* ------------------------------------------------------------------ *)

(** The date and time fields of a datetime object; a naive datetime
    consists of them alone. *)
Record datetime : Set := mkDatetime {
  year : Z; month : Z; day : Z;
  hour : Z; minute : Z; second : Z; microsecond : Z
}.

Definition is_leap (y : Z) : bool :=
  (y mod 4 =? 0) && (negb (y mod 100 =? 0) || (y mod 400 =? 0)).

Definition days_in_month (y m : Z) : Z :=
  if m =? 2 then (if is_leap y then 29 else 28)
  else if (m =? 4) || (m =? 6) || (m =? 9) || (m =? 11) then 30
  else 31.

(** The ranges [datetime.__new__] enforces: every datetime object that
    exists satisfies them. *)
Definition datetime_ok (d : datetime) : bool :=
  (1 <=? year d) && (year d <=? 9999) &&
  (1 <=? month d) && (month d <=? 12) &&
  (1 <=? day d) && (day d <=? days_in_month (year d) (month d)) &&
  (0 <=? hour d) && (hour d <? 24) &&
  (0 <=? minute d) && (minute d <? 60) &&
  (0 <=? second d) && (second d <? 60) &&
  (0 <=? microsecond d) && (microsecond d <? 1000000).

(** [d.isoformat()], which is also the JSON form of a naive datetime:
    [YYYY-MM-DDTHH:MM:SS], followed by [.ffffff] when the microseconds are
    not zero. *)
Definition isoformat (d : datetime) : string :=
  format_int 10 4 (year d) ++ "-" ++ format_int 10 2 (month d) ++ "-" ++
  format_int 10 2 (day d) ++ "T" ++
  format_int 10 2 (hour d) ++ ":" ++ format_int 10 2 (minute d) ++ ":" ++
  format_int 10 2 (second d) ++
  (if microsecond d =? 0 then "" else "." ++ format_int 10 6 (microsecond d)).

Definition digit_value (c : ascii) : option Z :=
  let n := Z.of_N (N_of_ascii c) in
  if (48 <=? n) && (n <=? 57) then Some (n - 48) else None.

(** Reads exactly [w] decimal digits. *)
Fixpoint take_digits (w : nat) (acc : Z) (s : string) : option (Z * string) :=
  match w with
  | O => Some (acc, s)
  | S w' =>
      match s with
      | String c s' =>
          match digit_value c with
          | Some d => take_digits w' (acc * 10 + d) s'
          | None => None
          end
      | EmptyString => None
      end
  end.

Definition expect (c : ascii) (s : string) : option string :=
  match s with
  | String c' s' => if Ascii.eqb c c' then Some s' else None
  | EmptyString => None
  end.

Notation "' p <- e ;; k" :=
  (match e with Some p => k | None => None end)
  (at level 61, p pattern, e at next level, right associativity).

(** The fraction of a second: absent, or a dot and six digits. *)
Definition take_fraction (s : string) : option Z :=
  match s with
  | EmptyString => Some 0
  | String c s' =>
      if Ascii.eqb c "."
      then match take_digits 6 0 s' with
           | Some (us, EmptyString) => Some us
           | _ => None
           end
      else None
  end.

(** Reads the layout [isoformat] writes. *)
Definition parse_isoformat (s : string) : option datetime :=
  ' (y, s) <- take_digits 4 0 s ;;
  ' s <- expect "-" s ;;
  ' (mo, s) <- take_digits 2 0 s ;;
  ' s <- expect "-" s ;;
  ' (d, s) <- take_digits 2 0 s ;;
  ' s <- expect "T" s ;;
  ' (h, s) <- take_digits 2 0 s ;;
  ' s <- expect ":" s ;;
  ' (mi, s) <- take_digits 2 0 s ;;
  ' s <- expect ":" s ;;
  ' (se, s) <- take_digits 2 0 s ;;
  ' us <- take_fraction s ;;
  let dt := mkDatetime y mo d h mi se us in
  if datetime_ok dt then Some dt else None.

(** A datetime object: naive, or aware, with the offset of its [tzinfo]
    from UTC in minutes. *)
Inductive datetime_object : Set :=
| Naive (d : datetime)
| Aware (d : datetime) (utcoffset : Z).

(** The ranges of a datetime object; the offset of a [tzinfo] lies
    strictly between minus and plus one day. *)
Definition datetime_object_ok (o : datetime_object) : bool :=
  match o with
  | Naive d => datetime_ok d
  | Aware d off => datetime_ok d && (-1440 <? off) && (off <? 1440)
  end.

(** The offset as the JSON form writes it: [Z] for UTC, else the sign,
    the hours and the minutes. *)
Definition utcoffset_text (off : Z) : string :=
  if off =? 0 then "Z"
  else (if off <? 0 then "-" else "+") ++
       format_int 10 2 (Z.abs off / 60) ++ ":" ++
       format_int 10 2 (Z.abs off mod 60).

(** The JSON form of a datetime object. *)
Definition datetime_text (o : datetime_object) : string :=
  match o with
  | Naive d => isoformat d
  | Aware d off => isoformat d ++ utcoffset_text off
  end.

(** The fraction of a second, when one is written, and what follows. *)
Definition take_fraction_then (s : string) : option (Z * string) :=
  match s with
  | EmptyString => Some (0, s)
  | String c s' => if Ascii.eqb c "." then take_digits 6 0 s' else Some (0, s)
  end.

(** The end of the text: nothing for a naive datetime, else the offset. *)
Definition parse_utcoffset (s : string) : option (option Z) :=
  match s with
  | EmptyString => Some None
  | String c s' =>
      if Ascii.eqb c "Z" then
        match s' with
        | EmptyString => Some (Some 0)
        | _ => None
        end
      else if Ascii.eqb c "+" || Ascii.eqb c "-" then
        ' (h, s1) <- take_digits 2 0 s' ;;
        ' s2 <- expect ":" s1 ;;
        ' (m, s3) <- take_digits 2 0 s2 ;;
        match s3 with
        | EmptyString =>
            let off := (if Ascii.eqb c "-" then -1 else 1) * (h * 60 + m) in
            if (h <? 24) && (m <? 60) && negb (off =? 0)
            then Some (Some off) else None
        | _ => None
        end
      else None
  end.

(** Reads the layout [datetime_text] writes.  The library reads further
    layouts as well; they are left to [datetime_lax] below. *)
Definition parse_datetime_text (s : string) : option datetime_object :=
  ' (y, s) <- take_digits 4 0 s ;;
  ' s <- expect "-" s ;;
  ' (mo, s) <- take_digits 2 0 s ;;
  ' s <- expect "-" s ;;
  ' (d, s) <- take_digits 2 0 s ;;
  ' s <- expect "T" s ;;
  ' (h, s) <- take_digits 2 0 s ;;
  ' s <- expect ":" s ;;
  ' (mi, s) <- take_digits 2 0 s ;;
  ' s <- expect ":" s ;;
  ' (se, s) <- take_digits 2 0 s ;;
  ' (us, s) <- take_fraction_then s ;;
  ' tz <- parse_utcoffset s ;;
  let dt := mkDatetime y mo d h mi se us in
  if datetime_ok dt
  then Some (match tz with
             | None => Naive dt
             | Some off => Aware dt off
             end)
  else None.

(* ------------------------------------------------------------------ *)
(** ** UTF-8, as the lax [str] validator decodes [bytes]               *)
(* ------------------------------------------------------------------ *)

Definition byte_in (lo hi : Z) (b : byte) : bool :=
  let n := Z.of_N (Byte.to_N b) in (lo <=? n) && (n <=? hi).

(** Well-formed UTF-8 byte sequences (Unicode, table 3-7). *)
Fixpoint utf8_valid (bs : list byte) : bool :=
  match bs with
  | [] => true
  | b0 :: r0 =>
      if byte_in 0x00 0x7f b0 then utf8_valid r0
      else
        match r0 with
        | [] => false
        | b1 :: r1 =>
            if byte_in 0xc2 0xdf b0 then byte_in 0x80 0xbf b1 && utf8_valid r1
            else
              match r1 with
              | [] => false
              | b2 :: r2 =>
                  if byte_in 0xe0 0xef b0 then
                    (if byte_in 0xe0 0xe0 b0 then byte_in 0xa0 0xbf b1
                     else if byte_in 0xed 0xed b0 then byte_in 0x80 0x9f b1
                     else byte_in 0x80 0xbf b1)
                    && byte_in 0x80 0xbf b2 && utf8_valid r2
                  else
                    match r2 with
                    | [] => false
                    | b3 :: r3 =>
                        byte_in 0xf0 0xf4 b0 &&
                        (if byte_in 0xf0 0xf0 b0 then byte_in 0x90 0xbf b1
                         else if byte_in 0xf4 0xf4 b0 then byte_in 0x80 0x8f b1
                         else byte_in 0x80 0xbf b1)
                        && byte_in 0x80 0xbf b2 && byte_in 0x80 0xbf b3
                        && utf8_valid r3
                    end
              end
        end
  end.

(* ------------------------------------------------------------------ *)
(** ** The world the default factories read                            *)
(* ------------------------------------------------------------------ *)

(** [entropy] lists the bytes [os.urandom] hands out, [clock] the
    successive readings of the local clock (local date and time, no time
    zone); the counters say how many of each have been used. *)
Record world : Type := mkWorld {
  entropy : nat -> byte;
  consumed : nat;
  clock : nat -> datetime;
  readings : nat
}.

Definition State (A : Type) : Type := world -> A * world.

Definition ret {A : Type} (a : A) : State A := fun w => (a, w).

Definition bind {A B : Type} (m : State A) (k : A -> State B) : State B :=
  fun w => let (a, w') := m w in k a w'.

Definition fmap {A B : Type} (f : A -> B) (m : State A) : State B :=
  bind m (fun a => ret (f a)).

(** [os.urandom(n)] *)
Definition os_urandom (n : nat) : State (list byte) :=
  fun w =>
    (map (fun i => entropy w (consumed w + i)%nat) (seq 0 n),
     mkWorld (entropy w) (consumed w + n)%nat (clock w) (readings w)).

(** [datetime.now()]: called without a time zone, it returns a naive
    datetime. *)
Definition datetime_now : State datetime_object :=
  fun w =>
    (Naive (clock w (readings w)),
     mkWorld (entropy w) (consumed w) (clock w) (S (readings w))).

(** [uuid4().hex] *)
Definition uuid4_hex : State string :=
  fmap UUID4_hex (os_urandom 16).

(* ------------------------------------------------------------------ *)
(** ** The declared classes                                            *)
(* ------------------------------------------------------------------ *)

(** [class Prompt(BaseModel)] *)
Record Prompt : Set := mkPrompt { input : string }.

(** [class MessageType(str, Enum)] *)
Inductive MessageType : Set := AI | USER.

(** The [str] value of a member: [AI = "ai"], [USER = "user"]. *)
Definition MessageType_value (t : MessageType) : string :=
  match t with
  | AI => "ai"
  | USER => "user"
  end.

(** [MessageType(s)]: the member whose value is [s], if any. *)
Definition MessageType_of_value (s : string) : option MessageType :=
  if (s =? "ai")%string then Some AI
  else if (s =? "user")%string then Some USER
  else None.

(** [class Message(BaseModel)] *)
Record Message : Set := mkMessage {
  id : string;
  type : MessageType;
  content : string
}.

(** [class Code(BaseModel)] *)
Record Code : Set := mkCode { html : string; css : string; js : string }.

(** [class Response(Code)]: the inherited fields, then [explanation].
    The coercion is the subclass relation: a [Response] is read as a
    [Code] through its shared fields. *)
Record Response : Set := mkResponse {
  Response_as_Code :> Code;
  explanation : string
}.

(** An object [o] with [isinstance(o, Code)]: of class [Code] itself or
    of its subclass [Response]. *)
Inductive CodeInstance : Set :=
| PlainCode (c : Code)
| SubResponse (r : Response).

Definition CodeInstance_as_Code (o : CodeInstance) : Code :=
  match o with
  | PlainCode c => c
  | SubResponse r => r
  end.

(** [class Chat(BaseModel)] *)
Record Chat : Set := mkChat {
  userId : string;
  messages : list Message;
  name : string;
  code : CodeInstance;
  createdAt : datetime_object
}.

(* ------------------------------------------------------------------ *)
(** ** Python values handed to the models                              *)
(* ------------------------------------------------------------------ *)

(** The Python values a caller can hand over: [None], numbers, texts,
    byte strings, collections, and objects of the classes above.
    [VIterable] stands for the other collections that a lax list
    validator iterates (a set, a frozenset, a deque, a generator, a
    dictionary view), with the items in the order of iteration; [VDict]
    for a [dict] or another mapping, by its items with a [str] key. *)
#[warnings="-register-all"]
Inductive value : Type :=
| VNone
| VBool (b : bool)
| VInt (n : Z)
| VFloat (mantissa exponent : Z)
| VStr (s : string)
| VBytes (bs : list byte)
| VBytearray (bs : list byte)
| VList (l : list value)
| VTuple (l : list value)
| VIterable (l : list value)
| VDict (d : list (string * value))
| VMessageType (t : MessageType)
| VDatetime (d : datetime_object)
| VMessage (m : Message)
| VCode (o : CodeInstance).

(** Keyword arguments, and the items of a [dict] with [str] keys. *)
Definition kwargs : Type := list (string * value).

Fixpoint lookup (k : string) (d : kwargs) : option value :=
  match d with
  | [] => None
  | (k', v) :: d' => if (k =? k')%string then Some v else lookup k d'
  end.

(** [isinstance(v, str)]: [MessageType] members are [str] instances. *)
Definition is_str (v : value) : bool :=
  match v with
  | VStr _ | VMessageType _ => true
  | _ => false
  end.

(* ------------------------------------------------------------------ *)
(** ** Validation failures                                             *)
(* ------------------------------------------------------------------ *)

Inductive loc_item : Set :=
| Field (name : string)
| Index (i : nat).

Inductive error_type : Set :=
| missing
| string_type
| string_unicode
| enum
| list_type
| model_type
| datetime_type
| datetime_parsing
| datetime_from_date_parsing.

(** One line of a validation failure: what went wrong and where. *)
Record error : Set := mkError {
  err_type : error_type;
  err_loc : list loc_item
}.

(** What a validator yields: the value, or the lines of the failure. *)
Inductive result (A : Type) : Type :=
| Ok (a : A)
| Err (errors : list error).
Arguments Ok {A} a.
Arguments Err {A} errors.

(** The exception raised to the caller; [title] names the class. *)
Record ValidationError : Set := mkValidationError {
  title : string;
  errors : list error
}.

Inductive outcome (A : Type) : Type :=
| Return (a : A)
| Raise (e : ValidationError).
Arguments Return {A} a.
Arguments Raise {A} e.

Definition Validator (A : Type) : Type := value -> State (result A).

Definition pure_validator {A : Type} (f : value -> result A) : Validator A :=
  fun v => ret (f v).

Definition result_map {A B : Type} (f : A -> B) (r : result A) : result B :=
  match r with
  | Ok a => Ok (f a)
  | Err es => Err es
  end.

(** Failures of several fields are all reported, in field order. *)
Definition result_ap {A B : Type} (rf : result (A -> B)) (ra : result A)
  : result B :=
  match rf, ra with
  | Ok f, Ok a => Ok (f a)
  | Ok _, Err es => Err es
  | Err es, Ok _ => Err es
  | Err es1, Err es2 => Err (es1 ++ es2)
  end.

(** The next field is validated whether or not an earlier one failed. *)
Definition ap {A B : Type} (mf : State (result (A -> B)))
  (ma : State (result A)) : State (result B) :=
  bind mf (fun rf => bind ma (fun ra => ret (result_ap rf ra))).

Notation "f <$> a" := (ap (ret (Ok f)) a) (at level 62, left associativity).
Notation "f <*> a" := (ap f a) (at level 62, left associativity).

Definition at_loc {A : Type} (l : loc_item) (r : result A) : result A :=
  match r with
  | Ok a => Ok a
  | Err es => Err (map (fun e => mkError (err_type e) (l :: err_loc e)) es)
  end.

Definition fail {A : Type} (t : error_type) : result A :=
  Err [mkError t []].

(** A field declared without a default. *)
Definition required {A : Type} (name : string) (validate : Validator A)
  (kw : kwargs) : State (result A) :=
  match lookup name kw with
  | Some v => fmap (at_loc (Field name)) (validate v)
  | None => ret (Err [mkError missing [Field name]])
  end.

(** A field declared with [= d] or [Field(default=d)]: the default is
    taken as it is (a mutable default such as [[]] is copied for each
    object, so no two objects share it). *)
Definition with_default {A : Type} (name : string) (validate : Validator A)
  (d : A) (kw : kwargs) : State (result A) :=
  match lookup name kw with
  | Some v => fmap (at_loc (Field name)) (validate v)
  | None => ret (Ok d)
  end.

(** A field declared with [Field(default_factory=f)]: [f] is called only
    when the field is not supplied. *)
Definition with_default_factory {A : Type} (name : string)
  (validate : Validator A) (factory : State (result A)) (kw : kwargs)
  : State (result A) :=
  match lookup name kw with
  | Some v => fmap (at_loc (Field name)) (validate v)
  | None => factory
  end.

(** Raising: the lines collected for class [cls] become its
    [ValidationError]. *)
Definition raise_for {A : Type} (cls : string) (m : State (result A))
  : State (outcome A) :=
  fmap (fun r => match r with
                 | Ok a => Return a
                 | Err es => Raise (mkValidationError cls es)
                 end) m.

(** *** Validators of the field types *)

(** [str], lax: a [str] instance, or a [bytes] or [bytearray] object
    that decodes as UTF-8. *)
Definition str_validator (v : value) : result string :=
  match v with
  | VStr s => Ok s
  | VMessageType t => Ok (MessageType_value t)
  | VBytes bs | VBytearray bs =>
      if utf8_valid bs then Ok (string_of_list_byte bs)
      else fail string_unicode
  | _ => fail string_type
  end.

(** [MessageType], lax: a member, or the value of one. *)
Definition MessageType_validator (v : value) : result MessageType :=
  match v with
  | VMessageType t => Ok t
  | _ =>
      match str_validator v with
      | Ok s =>
          match MessageType_of_value s with
          | Some t => Ok t
          | None => fail enum
          end
      | Err _ => fail enum
      end
  end.

Fixpoint validate_items {A : Type} (validate : Validator A) (i : nat)
  (l : list value) : State (result (list A)) :=
  match l with
  | [] => ret (Ok [])
  | v :: l' =>
      cons <$> fmap (at_loc (Index i)) (validate v)
           <*> validate_items validate (S i) l'
  end.

(** [List[T]], lax: the items of a [list], of a [tuple] or of another
    collection, every one validated in order, into a new list. *)
Definition list_validator {A : Type} (validate : Validator A) : Validator (list A) :=
  fun v =>
    match v with
    | VList l | VTuple l | VIterable l => validate_items validate 0%nat l
    | _ => ret (fail list_type)
    end.

(* ------------------------------------------------------------------ *)
(** ** The models                                                      *)
(* ------------------------------------------------------------------ *)

Section Models.

(** What the library's [datetime] validator makes of an input that is
    neither a datetime object nor a text in the layout of [datetime_text]
    (epoch numbers, other textual layouts, dates): the datetime it
    converts the input to, or the type of the line it reports.  Not fixed
    by this module. *)
Variable datetime_lax : value -> datetime_object + error_type.

Definition datetime_validator (v : value) : result datetime_object :=
  match v with
  | VDatetime o => Ok o
  | _ =>
      match match v with
            | VStr s => parse_datetime_text s
            | _ => None
            end with
      | Some o => Ok o
      | None =>
          match datetime_lax v with
          | inl o => Ok o
          | inr t => fail t
          end
      end
  end.

(** *** [Prompt]

    [input: str] *)
Definition Prompt_fields (kw : kwargs) : State (result Prompt) :=
  mkPrompt <$> required "input" (pure_validator str_validator) kw.

(** The call of [Prompt] with the keyword arguments [kw]. *)
Definition Prompt_new (kw : kwargs) : State (outcome Prompt) :=
  raise_for "Prompt" (Prompt_fields kw).

(** No value of [value] is a [Prompt] object: a [Prompt] is only read
    from a [dict]. *)
Definition Prompt_validator : Validator Prompt :=
  fun v =>
    match v with
    | VDict kw => Prompt_fields kw
    | _ => ret (fail model_type)
    end.

(** *** [Message]

    [id: str = Field(default_factory=lambda: uuid4().hex)]
    [type: MessageType = Field(default=MessageType.USER)]
    [content: str = Field(default="")] *)
Definition Message_fields (kw : kwargs) : State (result Message) :=
  mkMessage
    <$> with_default_factory "id" (pure_validator str_validator)
          (fmap Ok uuid4_hex) kw
    <*> with_default "type" (pure_validator MessageType_validator) USER kw
    <*> with_default "content" (pure_validator str_validator) "" kw.

(** The call of [Message] with the keyword arguments [kw]. *)
Definition Message_new (kw : kwargs) : State (outcome Message) :=
  raise_for "Message" (Message_fields kw).

(** A field of type [Message]: an instance is kept, a [dict] is built
    into one. *)
Definition Message_validator : Validator Message :=
  fun v =>
    match v with
    | VMessage m => ret (Ok m)
    | VDict kw => Message_fields kw
    | _ => ret (fail model_type)
    end.

(** *** [Code]

    [html: str = Field(default="")], and the same for [css] and [js]. *)
Definition Code_fields (kw : kwargs) : State (result Code) :=
  mkCode
    <$> with_default "html" (pure_validator str_validator) "" kw
    <*> with_default "css" (pure_validator str_validator) "" kw
    <*> with_default "js" (pure_validator str_validator) "" kw.

(** The call of [Code] with the keyword arguments [kw]. *)
Definition Code_new (kw : kwargs) : State (outcome Code) :=
  raise_for "Code" (Code_fields kw).

(** A field of type [Code]: an instance of [Code] or of a subclass is
    kept as it is, a [dict] is built into a [Code]. *)
Definition Code_validator : Validator CodeInstance :=
  fun v =>
    match v with
    | VCode o => ret (Ok o)
    | VDict kw => fmap (result_map PlainCode) (Code_fields kw)
    | _ => ret (fail model_type)
    end.

(** [default_factory=Code]: the class called without arguments. *)
Definition Code_factory : State (result CodeInstance) :=
  fmap (result_map PlainCode) (Code_fields []).

(** *** [Response]

    The fields of [Code], then [explanation: str = Field(default="")]. *)
Definition Response_fields (kw : kwargs) : State (result Response) :=
  mkResponse
    <$> Code_fields kw
    <*> with_default "explanation" (pure_validator str_validator) "" kw.

(** The call of [Response] with the keyword arguments [kw]. *)
Definition Response_new (kw : kwargs) : State (outcome Response) :=
  raise_for "Response" (Response_fields kw).

Definition Response_validator : Validator Response :=
  fun v =>
    match v with
    | VCode (SubResponse r) => ret (Ok r)
    | VDict kw => Response_fields kw
    | _ => ret (fail model_type)
    end.

(** *** [Chat]

    [userId: str]
    [messages: List[Message] = []]
    [name: str = Field(default="New Chat")]
    [code: Code = Field(default_factory=Code)]
    [createdAt: datetime = Field(default_factory=datetime.now)] *)
Definition Chat_fields (kw : kwargs) : State (result Chat) :=
  mkChat
    <$> required "userId" (pure_validator str_validator) kw
    <*> with_default "messages" (list_validator Message_validator) [] kw
    <*> with_default "name" (pure_validator str_validator) "New Chat" kw
    <*> with_default_factory "code" Code_validator Code_factory kw
    <*> with_default_factory "createdAt" (pure_validator datetime_validator)
          (fmap Ok datetime_now) kw.

(** The call of [Chat] with the keyword arguments [kw]. *)
Definition Chat_new (kw : kwargs) : State (outcome Chat) :=
  raise_for "Chat" (Chat_fields kw).

(** Likewise no value of [value] is a [Chat] object. *)
Definition Chat_validator : Validator Chat :=
  fun v =>
    match v with
    | VDict kw => Chat_fields kw
    | _ => ret (fail model_type)
    end.

(** *** Serialization and deserialization

    [model_dump(mode="json")]: the JSON object of an entity, one key per
    declared field.  A member of [MessageType] is written as its value, a
    datetime as [datetime_text] gives it, a nested model by the class
    the field declares.  [model_validate] reads such an object back. *)
Definition Prompt_model_dump (p : Prompt) : value :=
  VDict [("input", VStr (input p))].

Definition Message_model_dump (m : Message) : value :=
  VDict [("id", VStr (id m));
         ("type", VStr (MessageType_value (type m)));
         ("content", VStr (content m))].

Definition Code_model_dump (c : Code) : value :=
  VDict [("html", VStr (html c)); ("css", VStr (css c)); ("js", VStr (js c))].

Definition Response_model_dump (r : Response) : value :=
  VDict [("html", VStr (html r)); ("css", VStr (css r)); ("js", VStr (js r));
         ("explanation", VStr (explanation r))].

Definition Chat_model_dump (c : Chat) : value :=
  VDict [("userId", VStr (userId c));
         ("messages", VList (map Message_model_dump (messages c)));
         ("name", VStr (name c));
         ("code", Code_model_dump (CodeInstance_as_Code (code c)));
         ("createdAt", VStr (datetime_text (createdAt c)))].

Definition Prompt_model_validate (v : value) : State (outcome Prompt) :=
  raise_for "Prompt" (Prompt_validator v).

Definition Message_model_validate (v : value) : State (outcome Message) :=
  raise_for "Message" (Message_validator v).

Definition Code_model_validate (v : value) : State (outcome CodeInstance) :=
  raise_for "Code" (Code_validator v).

Definition Response_model_validate (v : value) : State (outcome Response) :=
  raise_for "Response" (Response_validator v).

Definition Chat_model_validate (v : value) : State (outcome Chat) :=
  raise_for "Chat" (Chat_validator v).

End Models.

(* ------------------------------------------------------------------ *)
(** ** Notions the properties are stated with                         *)
(* ------------------------------------------------------------------ *)

(** The value of a hexadecimal digit. *)
Definition hex_digit_value (c : ascii) : option Z :=
  let n := Z.of_N (N_of_ascii c) in
  if (48 <=? n) && (n <=? 57) then Some (n - 48)
  else if (97 <=? n) && (n <=? 102) then Some (n - 87)
  else if (65 <=? n) && (n <=? 70) then Some (n - 55)
  else None.

Fixpoint int_of_hex_from (acc : Z) (s : string) : option Z :=
  match s with
  | EmptyString => Some acc
  | String c s' =>
      match hex_digit_value c with
      | Some d => int_of_hex_from (acc * 16 + d) s'
      | None => None
      end
  end.

(** The number a text of hexadecimal digits denotes: [int(s, 16)]. *)
Definition int_of_hex (s : string) : option Z :=
  match s with
  | EmptyString => None
  | _ => int_of_hex_from 0 s
  end.

(** Bit [i] of the sixteen bytes that [os.urandom] hands out next in
    [w], read as one big-endian number: bit [i mod 8] of the byte at
    place [15 - i / 8]. *)
Definition drawn_bit (w : world) (i : nat) : bool :=
  Z.testbit (Z.of_N (Byte.to_N (entropy w (consumed w + (15 - i / 8))%nat)))
            (Z.of_nat (i mod 8)).

(** The bits that RFC 4122 fixes in a version-4 UUID: the variant, 1 0,
    in the bits 63 and 62, and the version, 0 1 0 0, in the bits 79 to
    76. *)
Definition fixed_bit (i : nat) : option bool :=
  if (i =? 63)%nat then Some true
  else if (i =? 62)%nat then Some false
  else if (i =? 78)%nat then Some true
  else if (i =? 79)%nat || (i =? 77)%nat || (i =? 76)%nat then Some false
  else None.

(** Bit [i] of the version-4 UUID made of the next sixteen bytes. *)
Definition UUID4_bit (w : world) (i : nat) : bool :=
  match fixed_bit i with
  | Some b => b
  | None => drawn_bit w i
  end.

(** A [bytes] or [bytearray] object that holds well-formed UTF-8. *)
Definition is_utf8_bytes (v : value) : bool :=
  match v with
  | VBytes bs | VBytearray bs => utf8_valid bs
  | _ => false
  end.

(** A value a [str] field takes: a [str], or a [bytes] or [bytearray]
    object holding well-formed UTF-8. *)
Definition is_text (v : value) : bool := is_str v || is_utf8_bytes v.

(** A value the field [type] takes: a member of [MessageType], or the
    [str] "ai" or "user". *)
Definition is_message_type (v : value) : bool :=
  match v with
  | VMessageType _ => true
  | VStr s => (s =? "ai")%string || (s =? "user")%string
  | _ => false
  end.

(** The field [name] is supplied with a value that is not [ok]. *)
Definition supplied_bad (name : string) (ok : value -> bool) (kw : kwargs)
  : bool :=
  match lookup name kw with
  | Some v => negb (ok v)
  | None => false
  end.

(** The run of [m] from [w] fails, and [e] is one of the lines. *)
Definition raises_at {A : Type} (m : State (result A)) (w : world)
  (e : error) : Prop :=
  exists es w', m w = (Err es, w') /\ In e es.

Definition rejected {A : Type} (r : result A) : bool :=
  match r with
  | Ok _ => false
  | Err _ => true
  end.

(** The field [name] is supplied and its validator turns the value down. *)
Definition field_rejected {A : Type} (name : string) (f : value -> result A)
  (kw : kwargs) : bool :=
  match lookup name kw with
  | Some v => rejected (f v)
  | None => false
  end.

(** Every argument supplied is a text. *)
Definition all_text (kw : kwargs) : bool :=
  forallb (fun kv => match snd kv with VStr _ => true | _ => false end) kw.

(** The text supplied under [name], the empty text if there is none. *)
Definition text_of (name : string) (kw : kwargs) : string :=
  match lookup name kw with
  | Some (VStr s) => s
  | _ => ""
  end.

(** [type(o) is Code] *)
Definition is_plain (o : CodeInstance) : bool :=
  match o with
  | PlainCode _ => true
  | SubResponse _ => false
  end.

(* ------------------------------------------------------------------ *)
(** ** Failure reports and effects, as functions of the arguments      *)
(* ------------------------------------------------------------------ *)

(** The lines of a result: none when it is a value. *)
Definition lines {A : Type} (r : result A) : list error :=
  match r with
  | Ok _ => []
  | Err es => es
  end.

Definition prefix_loc (l : loc_item) (es : list error) : list error :=
  map (fun e => mkError (err_type e) (l :: err_loc e)) es.

(** [es] is what [r] reports: nothing for a value, and for a failure its
    lines, of which there is at least one. *)
Definition reports {A : Type} (r : result A) (es : list error) : Prop :=
  match r with
  | Ok _ => es = []
  | Err es' => es' = es /\ es <> []
  end.

(** The lines of a field with a default: those of its validator on the
    value supplied, none when the field is left out. *)
Definition field_lines {A : Type} (name : string) (f : value -> result A)
  (kw : kwargs) : list error :=
  match lookup name kw with
  | Some v => prefix_loc (Field name) (lines (f v))
  | None => []
  end.

(** The lines of a field without a default. *)
Definition required_lines {A : Type} (name : string) (f : value -> result A)
  (kw : kwargs) : list error :=
  match lookup name kw with
  | Some v => prefix_loc (Field name) (lines (f v))
  | None => [mkError missing [Field name]]
  end.

Definition Prompt_lines (kw : kwargs) : list error :=
  required_lines "input" str_validator kw.

Definition Message_lines (kw : kwargs) : list error :=
  field_lines "id" str_validator kw ++
  field_lines "type" MessageType_validator kw ++
  field_lines "content" str_validator kw.

Definition Code_lines (kw : kwargs) : list error :=
  field_lines "html" str_validator kw ++
  field_lines "css" str_validator kw ++
  field_lines "js" str_validator kw.

Definition Response_lines (kw : kwargs) : list error :=
  Code_lines kw ++ field_lines "explanation" str_validator kw.

(** The lines of one item of [messages]. *)
Definition Message_value_lines (v : value) : list error :=
  match v with
  | VMessage _ => []
  | VDict kw => Message_lines kw
  | _ => [mkError model_type []]
  end.

Fixpoint items_lines (i : nat) (l : list value) : list error :=
  match l with
  | [] => []
  | v :: l' =>
      prefix_loc (Index i) (Message_value_lines v) ++ items_lines (S i) l'
  end.

Definition messages_lines (kw : kwargs) : list error :=
  match lookup "messages" kw with
  | Some (VList l) | Some (VTuple l) | Some (VIterable l) =>
      prefix_loc (Field "messages") (items_lines 0 l)
  | Some _ => [mkError list_type [Field "messages"]]
  | None => []
  end.

Definition code_lines (kw : kwargs) : list error :=
  match lookup "code" kw with
  | Some (VCode _) => []
  | Some (VDict d) => prefix_loc (Field "code") (Code_lines d)
  | Some _ => [mkError model_type [Field "code"]]
  | None => []
  end.

(** The lines of a [Chat], field after field in the order declared. *)
Definition Chat_lines (lax : value -> datetime_object + error_type) (kw : kwargs)
  : list error :=
  required_lines "userId" str_validator kw ++
  messages_lines kw ++
  field_lines "name" str_validator kw ++
  code_lines kw ++
  field_lines "createdAt" (datetime_validator lax) kw.

(** Comparison in lexicographic order: the first difference decides. *)
Definition lex (c1 c2 : comparison) : comparison :=
  match c1 with
  | Eq => c2
  | _ => c1
  end.

(** The order of naive datetimes: that of their fields, from the year
    down to the microsecond. *)
Definition datetime_compare (d1 d2 : datetime) : comparison :=
  lex (year d1 ?= year d2)
  (lex (month d1 ?= month d2)
  (lex (day d1 ?= day d2)
  (lex (hour d1 ?= hour d2)
  (lex (minute d1 ?= minute d2)
  (lex (second d1 ?= second d2)
       (microsecond d1 ?= microsecond d2)))))).

(** The world after [n] more bytes of entropy were taken. *)
Definition advance (w : world) (n : nat) : world :=
  mkWorld (entropy w) (consumed w + n)%nat (clock w) (readings w).

(** The world after the clock was read [n] more times. *)
Definition tick (w : world) (n : nat) : world :=
  mkWorld (entropy w) (consumed w) (clock w) (readings w + n)%nat.

(** The [j]-th block of sixteen bytes taken from [w] on. *)
Definition draw_at (w : world) (j : nat) : list byte :=
  fst (os_urandom 16 (advance w (16 * j))).

(** An item of [messages] for which an identifier is generated: a [dict]
    without the key [id]. *)
Definition needs_id (v : value) : bool :=
  match v with
  | VDict d =>
      match lookup "id" d with
      | Some _ => false
      | None => true
      end
  | _ => false
  end.

(** How many identifiers the construction of a [Chat] generates. *)
Definition generated_ids (kw : kwargs) : nat :=
  match lookup "messages" kw with
  | Some (VList l) | Some (VTuple l) | Some (VIterable l) =>
      List.length (filter needs_id l)
  | _ => 0%nat
  end.

(** How many times the construction of a [Chat] reads the clock. *)
Definition clock_reads (kw : kwargs) : nat :=
  match lookup "createdAt" kw with
  | Some _ => 0%nat
  | None => 1%nat
  end.

(** A message given by its content alone, as a [dict]. *)
Definition content_only (s : string) : value :=
  VDict [("content", VStr s)].

(** The messages built from contents alone: the [j]-th carries the
    identifier made of the [j]-th block of entropy. *)
Fixpoint drafted (w : world) (j : nat) (ss : list string) : list Message :=
  match ss with
  | [] => []
  | s :: ss' => mkMessage (UUID4_hex (draw_at w j)) USER s :: drafted w (S j) ss'
  end.

(** Two sets of arguments that supply the same for every name of
    [names]. *)
Definition same_on (names : list string) (kw1 kw2 : kwargs) : Prop :=
  forall n, In n names -> lookup n kw1 = lookup n kw2.

(* ------------------------------------------------------------------ *)
(** ** Concrete inputs used by the examples                            *)
(* ------------------------------------------------------------------ *)

Fixpoint string_forall (p : ascii -> bool) (s : string) : bool :=
  match s with
  | EmptyString => true
  | String c s' => p c && string_forall p s'
  end.

(** The two draws of sixteen bytes behind two successive identifiers. *)
Definition first_draw (w : world) : list byte := fst (os_urandom 16 w).
Definition second_draw (w : world) : list byte :=
  fst (os_urandom 16 (snd (os_urandom 16 w))).

(** A library that converts nothing beyond the layout of
    [datetime_text]: a text or bytes it cannot read are reported as
    [datetime_from_date_parsing], any other value as [datetime_type]. *)
Definition no_lax : value -> datetime_object + error_type :=
  fun v =>
    match v with
    | VStr _ | VBytes _ | VBytearray _ => inr datetime_from_date_parsing
    | _ => inr datetime_type
    end.

Definition noon : datetime := mkDatetime 2024 5 6 12 0 0 0.

(** A world whose entropy source repeats itself. *)
Definition stuck_world : world :=
  mkWorld (fun _ => x00) 0 (fun _ => noon) 0.

(** A world whose entropy source counts up. *)
Definition counting_world : world :=
  mkWorld (fun i => match Byte.of_N (N.of_nat i mod 256) with
                    | Some b => b
                    | None => x00
                    end) 0 (fun _ => noon) 0.

Definition done_response : Response := mkResponse (mkCode "" "" "") "done".

Definition sample_chat : Chat :=
  mkChat "u1" [mkMessage "m1" AI "hello"; mkMessage "m2" USER "hi"]
         "New Chat" (PlainCode (mkCode "<p></p>" "p {}" ""))
         (Aware noon (-330)).

(** A world whose clock moves on by a second at each reading, and which
    has been read seven times. *)
Definition ticking_world : world :=
  mkWorld (fun _ => x00) 0
          (fun k => mkDatetime 2024 5 6 12 0 (Z.of_nat k) 0) 7.

(* ================================================================== *)
(** * Properties                                                       *)
(* ================================================================== *)

(** ** Digits *)

Lemma zero_padded_length (base : Z) (w : nat) (n : Z) :
  String.length (zero_padded base w n) = w.
Proof.
  induction w as [|w IH]; simpl; [reflexivity | now rewrite IH].
Qed.

Lemma ndigits_fuel_le (fuel : nat) (base : Z) :
  2 <= base ->
  forall (w : nat) (n : Z),
    (1 <= w)%nat -> 0 <= n < base ^ Z.of_nat w ->
    (ndigits_fuel fuel base n <= w)%nat.
Proof.
  intros Hb. induction fuel as [|f IH]; intros w n Hw Hn; simpl; [lia|].
  destruct (Z.ltb_spec n base) as [Hlt|Hge]; [lia|].
  destruct w as [|[|w]]; [lia | |].
  - change (Z.of_nat 1) with 1 in Hn. rewrite Z.pow_1_r in Hn. lia.
  - apply le_n_S. apply IH; [lia|].
    split; [apply Z.div_pos; lia|].
    apply Z.div_lt_upper_bound; [lia|].
    replace (Z.of_nat (S (S w))) with (Z.succ (Z.of_nat (S w))) in Hn by lia.
    rewrite Z.pow_succ_r in Hn by lia. lia.
Qed.

(** Within its width, a number is printed on exactly that width. *)
Lemma format_int_in_width (base : Z) (w : nat) (n : Z) :
  2 <= base -> (1 <= w)%nat -> 0 <= n < base ^ Z.of_nat w ->
  format_int base w n = zero_padded base w n.
Proof.
  intros Hb Hw Hn. unfold format_int, ndigits.
  rewrite Nat.max_l; [reflexivity|].
  now apply ndigits_fuel_le.
Qed.

Lemma digit_cases (d : Z) :
  0 <= d < 16 ->
  d = 0 \/ d = 1 \/ d = 2 \/ d = 3 \/ d = 4 \/ d = 5 \/ d = 6 \/ d = 7 \/
  d = 8 \/ d = 9 \/ d = 10 \/ d = 11 \/ d = 12 \/ d = 13 \/ d = 14 \/ d = 15.
Proof. lia. Qed.

Ltac each_digit d H :=
  let C := fresh "C" in
  pose proof (digit_cases d H) as C;
  repeat (destruct C as [C|C]; [subst d|]); try subst d.

Lemma digit_of_is_hex (d : Z) :
  0 <= d < 16 -> is_hex_digit (digit_of d) = true.
Proof. intros H. each_digit d H; reflexivity. Qed.

Lemma digit_value_digit_of (d : Z) :
  0 <= d < 10 -> digit_value (digit_of d) = Some d.
Proof.
  intros H. assert (H16 : 0 <= d < 16) by lia.
  each_digit d H16; try reflexivity; lia.
Qed.

Lemma digit_of_inj (a b : Z) :
  0 <= a < 16 -> 0 <= b < 16 -> digit_of a = digit_of b -> a = b.
Proof.
  intros Ha Hb. each_digit a Ha; each_digit b Hb;
    intros E; try reflexivity; discriminate E.
Qed.

Lemma zero_padded_hex (w : nat) (n : Z) :
  string_forall is_hex_digit (zero_padded 16 w n) = true.
Proof.
  induction w as [|w IH]; simpl; [reflexivity|].
  rewrite IH, andb_true_r. apply digit_of_is_hex.
  apply Z.mod_pos_bound. lia.
Qed.

Lemma mod_pow_succ (base n : Z) (w : nat) :
  0 < base ->
  n mod base ^ Z.of_nat (S w) =
  (n / base ^ Z.of_nat w) mod base * base ^ Z.of_nat w + n mod base ^ Z.of_nat w.
Proof.
  intros Hb.
  replace (Z.of_nat (S w)) with (Z.succ (Z.of_nat w)) by lia.
  rewrite Z.pow_succ_r by lia.
  assert (Hp : 0 < base ^ Z.of_nat w) by (apply Z.pow_pos_nonneg; lia).
  rewrite (Z.mul_comm base), Z.rem_mul_r by lia. lia.
Qed.

(** Two numbers printed alike on [w] hexadecimal digits agree on their
    [w] low digits. *)
Lemma zero_padded_hex_inj (w : nat) (a b : Z) :
  zero_padded 16 w a = zero_padded 16 w b ->
  a mod 16 ^ Z.of_nat w = b mod 16 ^ Z.of_nat w.
Proof.
  induction w as [|w IH]; intros E.
  - now rewrite !Z.mod_1_r.
  - simpl in E. injection E as Ed Et.
    apply digit_of_inj in Ed; try (apply Z.mod_pos_bound; lia).
    rewrite !mod_pow_succ by lia. rewrite Ed, (IH Et). reflexivity.
Qed.

(** Reading back [w] decimal digits. *)
Lemma take_digits_zero_padded (w : nat) (n acc : Z) (rest : string) :
  take_digits w acc (zero_padded 10 w n ++ rest) =
  Some (acc * 10 ^ Z.of_nat w + n mod 10 ^ Z.of_nat w, rest).
Proof.
  revert acc. induction w as [|w IH]; intros acc.
  - simpl. rewrite Z.mod_1_r. do 2 f_equal. lia.
  - cbn [zero_padded append take_digits].
    rewrite digit_value_digit_of by (apply Z.mod_pos_bound; lia).
    rewrite IH, mod_pow_succ by lia.
    replace (Z.of_nat (S w)) with (Z.succ (Z.of_nat w)) by lia.
    rewrite Z.pow_succ_r by lia. do 2 f_equal. ring.
Qed.

(** ** The text of a datetime *)

Lemma take_digits_format (w : nat) (n : Z) (rest : string) :
  (1 <= w)%nat -> 0 <= n < 10 ^ Z.of_nat w ->
  take_digits w 0 (format_int 10 w n ++ rest) = Some (n, rest).
Proof.
  intros Hw Hn. rewrite format_int_in_width by lia.
  rewrite take_digits_zero_padded, Z.mod_small by lia. reflexivity.
Qed.

Lemma expect_append (c : ascii) (rest : string) :
  expect c (String c "" ++ rest) = Some rest.
Proof. simpl. now rewrite Ascii.eqb_refl. Qed.

Lemma append_empty_r (s : string) : s ++ "" = s.
Proof. induction s as [|c s IH]; simpl; [reflexivity | now rewrite IH]. Qed.

Lemma take_fraction_format (us : Z) :
  0 <= us < 1000000 ->
  take_fraction (if us =? 0 then "" else "." ++ format_int 10 6 us) = Some us.
Proof.
  intros H. destruct (Z.eqb_spec us 0) as [->|Hnz]; [reflexivity|].
  cbn [append take_fraction]. rewrite Ascii.eqb_refl.
  rewrite <- (append_empty_r (format_int 10 6 us)).
  rewrite take_digits_format by (change (10 ^ Z.of_nat 6) with 1000000; lia).
  reflexivity.
Qed.

Lemma days_in_month_le (y m : Z) : days_in_month y m <= 31.
Proof.
  unfold days_in_month.
  destruct (m =? 2); [destruct (is_leap y); lia|].
  destruct ((m =? 4) || (m =? 6) || (m =? 9) || (m =? 11)); lia.
Qed.

Lemma datetime_ok_bounds_of (d : datetime) :
  datetime_ok d = true ->
  0 <= year d < 10000 /\ 0 <= month d < 100 /\ 0 <= day d < 100 /\
  0 <= hour d < 100 /\ 0 <= minute d < 100 /\ 0 <= second d < 100 /\
  0 <= microsecond d < 1000000.
Proof.
  intros H. unfold datetime_ok in H.
  repeat rewrite andb_true_iff in H.
  repeat match goal with
         | H : _ /\ _ |- _ => destruct H
         | H : (_ <=? _) = true |- _ => apply Z.leb_le in H
         | H : (_ <? _) = true |- _ => apply Z.ltb_lt in H
         end.
  pose proof (days_in_month_le (year d) (month d)). lia.
Qed.

(** Reading the text of a datetime gives the datetime back. *)
Lemma parse_isoformat_isoformat (d : datetime) :
  datetime_ok d = true -> parse_isoformat (isoformat d) = Some d.
Proof.
  intros Hok. pose proof Hok as H.
  destruct d as [y mo dd h mi s us].
  unfold datetime_ok in H. cbn [year month day hour minute second microsecond] in H.
  repeat rewrite andb_true_iff in H.
  repeat match goal with
         | H : _ /\ _ |- _ => destruct H
         | H : (_ <=? _) = true |- _ => apply Z.leb_le in H
         | H : (_ <? _) = true |- _ => apply Z.ltb_lt in H
         end.
  pose proof (days_in_month_le y mo).
  unfold parse_isoformat, isoformat.
  cbn [year month day hour minute second microsecond].
  rewrite take_digits_format by (change (10 ^ Z.of_nat 4) with 10000; lia).
  rewrite expect_append.
  rewrite take_digits_format by (change (10 ^ Z.of_nat 2) with 100; lia).
  rewrite expect_append.
  rewrite take_digits_format by (change (10 ^ Z.of_nat 2) with 100; lia).
  rewrite expect_append.
  rewrite take_digits_format by (change (10 ^ Z.of_nat 2) with 100; lia).
  rewrite expect_append.
  rewrite take_digits_format by (change (10 ^ Z.of_nat 2) with 100; lia).
  rewrite expect_append.
  rewrite take_digits_format by (change (10 ^ Z.of_nat 2) with 100; lia).
  rewrite take_fraction_format by lia.
  now rewrite Hok.
Qed.

(** ** The identifier *)

Lemma int_from_bytes_fold (bs : list byte) (acc : Z) :
  fold_left (fun a b => a * 256 + Z.of_N (Byte.to_N b)) bs acc =
  acc * 256 ^ Z.of_nat (List.length bs) + int_from_bytes bs.
Proof.
  unfold int_from_bytes. revert acc.
  induction bs as [|b bs IH]; intros acc.
  - simpl. lia.
  - cbn [fold_left List.length]. rewrite IH, (IH (0 * 256 + _)).
    replace (Z.of_nat (S (List.length bs)))
      with (Z.succ (Z.of_nat (List.length bs))) by lia.
    rewrite Z.pow_succ_r by lia. ring.
Qed.

Lemma byte_to_N_bound (b : byte) : 0 <= Z.of_N (Byte.to_N b) < 256.
Proof.
  pose proof (Byte.to_N_bounded b) as H. lia.
Qed.

Lemma int_from_bytes_bound (bs : list byte) :
  0 <= int_from_bytes bs < 256 ^ Z.of_nat (List.length bs).
Proof.
  induction bs as [|b bs IH].
  - cbn. lia.
  - unfold int_from_bytes. cbn [fold_left List.length].
    rewrite int_from_bytes_fold.
    replace (Z.of_nat (S (List.length bs)))
      with (Z.succ (Z.of_nat (List.length bs))) by lia.
    rewrite Z.pow_succ_r by lia.
    pose proof (byte_to_N_bound b). nia.
Qed.

Lemma os_urandom_length (n : nat) (w : world) :
  List.length (fst (os_urandom n w)) = n.
Proof. unfold os_urandom. cbn [fst]. now rewrite length_map, length_seq. Qed.

(** The random bits are the 128 bits of the number without the two of
    the variant (62, 63) and the four of the version (76 to 79). *)
Lemma UUID4_random_bits_mask :
  Z.land (Z.ones 128) UUID4_random_bits =
  2 ^ 128 - 1 - (2 ^ 62 + 2 ^ 63) - (2 ^ 76 + 2 ^ 77 + 2 ^ 78 + 2 ^ 79).
Proof. reflexivity. Qed.

Lemma UUID_set_version_4 (r : Z) :
  UUID_set_version r 4 = Z.lor (Z.land r UUID4_random_bits) UUID4_fixed_bits.
Proof.
  unfold UUID_set_version, UUID4_random_bits, UUID4_fixed_bits.
  rewrite Z.land_lor_distr_l, <- Z.land_assoc, <- Z.lor_assoc.
  reflexivity.
Qed.

Lemma UUID_set_version_random_bits (r : Z) :
  Z.land (UUID_set_version r 4) UUID4_random_bits = Z.land r UUID4_random_bits.
Proof.
  rewrite UUID_set_version_4, Z.land_lor_distr_l, <- Z.land_assoc.
  rewrite Z.land_diag.
  change (Z.land UUID4_fixed_bits UUID4_random_bits) with 0.
  apply Z.lor_0_r.
Qed.

Lemma UUID_set_version_bound (r : Z) :
  0 <= r < 2 ^ 128 -> 0 <= UUID_set_version r 4 < 2 ^ 128.
Proof.
  intros Hr. rewrite UUID_set_version_4.
  assert (E : Z.land r UUID4_random_bits =
              Z.land r (Z.land (Z.ones 128) UUID4_random_bits)).
  { rewrite Z.land_assoc, Z.land_ones, Z.mod_small by lia. reflexivity. }
  rewrite E. clear E.
  set (m := Z.land (Z.ones 128) UUID4_random_bits).
  assert (Hm : 0 <= m) by (vm_compute; discriminate).
  assert (Hf : 0 <= UUID4_fixed_bits) by (vm_compute; discriminate).
  assert (H0 : 0 <= Z.land r m) by (apply Z.land_nonneg; lia).
  assert (Hnn : 0 <= Z.lor (Z.land r m) UUID4_fixed_bits)
    by (apply Z.lor_nonneg; lia).
  split; [exact Hnn|].
  assert (Hnz : Z.lor (Z.land r m) UUID4_fixed_bits <> 0).
  { rewrite Z.lor_eq_0_iff. intros [_ Ef]. vm_compute in Ef. discriminate Ef. }
  apply Z.log2_lt_pow2; [lia|].
  rewrite Z.log2_lor by lia.
  apply Z.max_lub_lt; [|vm_compute; reflexivity].
  pose proof (Z.log2_land r m (proj1 Hr) Hm) as Hl.
  assert (Z.log2 m = 127) by (vm_compute; reflexivity).
  lia.
Qed.

Lemma UUID4_int_bound (bs : list byte) :
  List.length bs = 16%nat ->
  0 <= UUID_set_version (int_from_bytes bs) 4 < 16 ^ Z.of_nat 32.
Proof.
  intros Hl. change (16 ^ Z.of_nat 32) with (2 ^ 128).
  apply UUID_set_version_bound.
  pose proof (int_from_bytes_bound bs) as H. rewrite Hl in H.
  change (256 ^ Z.of_nat 16) with (2 ^ 128) in H. exact H.
Qed.

Lemma UUID4_hex_padded (bs : list byte) :
  List.length bs = 16%nat ->
  UUID4_hex bs = zero_padded 16 32 (UUID_set_version (int_from_bytes bs) 4).
Proof.
  intros Hl. unfold UUID4_hex.
  apply format_int_in_width; [lia | lia | now apply UUID4_int_bound].
Qed.

(** The identifier made of sixteen random bytes: thirty-two characters,
    each a lower-case hexadecimal digit. *)
Lemma UUID4_hex_shape (bs : list byte) :
  List.length bs = 16%nat ->
  String.length (UUID4_hex bs) = 32%nat /\
  string_forall is_hex_digit (UUID4_hex bs) = true.
Proof.
  intros Hl. rewrite UUID4_hex_padded by exact Hl.
  split; [apply zero_padded_length | apply zero_padded_hex].
Qed.

(** Two identifiers are the same exactly when the random numbers behind
    them agree on every bit that is not overwritten. *)
Lemma UUID4_hex_eq_iff (bs1 bs2 : list byte) :
  List.length bs1 = 16%nat -> List.length bs2 = 16%nat ->
  UUID4_hex bs1 = UUID4_hex bs2 <->
  Z.land (int_from_bytes bs1) UUID4_random_bits =
  Z.land (int_from_bytes bs2) UUID4_random_bits.
Proof.
  intros H1 H2. rewrite !UUID4_hex_padded by assumption.
  split; intros E.
  - apply zero_padded_hex_inj in E.
    rewrite !Z.mod_small in E by now apply UUID4_int_bound.
    rewrite <- (UUID_set_version_random_bits (int_from_bytes bs1)).
    rewrite <- (UUID_set_version_random_bits (int_from_bytes bs2)).
    now rewrite E.
  - rewrite !UUID_set_version_4. now rewrite E.
Qed.

(** ** Running the validators *)

Ltac run_state :=
  unfold pure_validator, uuid4_hex, raise_for, ap, fmap, bind, ret,
    os_urandom, datetime_now in *.

Lemma ap_ok {A B : Type} (mf : State (result (A -> B)))
  (ma : State (result A)) (w w1 w2 : world) (f : A -> B) (a : A) :
  mf w = (Ok f, w1) -> ma w1 = (Ok a, w2) -> (mf <*> ma) w = (Ok (f a), w2).
Proof. intros Hf Ha. run_state. now rewrite Hf, Ha. Qed.

Lemma ap_raises_l {A B : Type} (mf : State (result (A -> B)))
  (ma : State (result A)) (w : world) (e : error) :
  raises_at mf w e -> raises_at (mf <*> ma) w e.
Proof.
  intros (es & w1 & Hf & Hin). unfold raises_at. run_state. rewrite Hf.
  destruct (ma w1) as [[a|es2] w2]; cbn; eexists _, _; split;
    try reflexivity; auto using in_or_app.
Qed.

Lemma ap_raises_r {A B : Type} (mf : State (result (A -> B)))
  (ma : State (result A)) (w : world) (e : error) :
  raises_at ma (snd (mf w)) e -> raises_at (mf <*> ma) w e.
Proof.
  intros (es & w2 & Ha & Hin). unfold raises_at. run_state.
  destruct (mf w) as [[f|es1] w1]; cbn in Ha; rewrite Ha; cbn;
    eexists _, _; split; try reflexivity; auto using in_or_app.
Qed.

Lemma raise_for_raises {A : Type} (cls : string) (m : State (result A))
  (w : world) (e : error) :
  raises_at m w e ->
  exists es w',
    raise_for cls m w = (Raise (mkValidationError cls es), w') /\ In e es.
Proof.
  intros (es & w' & Hm & Hin). exists es, w'. run_state. now rewrite Hm.
Qed.

Lemma supplied_raises {A : Type} (name : string) (validate : Validator A)
  (kw : kwargs) (v : value) (w w' : world) (t : error_type) :
  lookup name kw = Some v ->
  validate v w = (fail t, w') ->
  raises_at (fmap (at_loc (Field name)) (validate v)) w
            (mkError t [Field name]).
Proof.
  intros Hl Hv. exists [mkError t [Field name]], w'. run_state.
  rewrite Hv. cbn. auto.
Qed.

Lemma MessageType_of_value_value (t : MessageType) :
  MessageType_of_value (MessageType_value t) = Some t.
Proof. now destruct t. Qed.

Lemma MessageType_of_value_inv (s : string) (t : MessageType) :
  MessageType_of_value s = Some t -> s = MessageType_value t.
Proof.
  unfold MessageType_of_value.
  destruct (String.eqb_spec s "ai") as [->|]; [now intros [= <-]|].
  destruct (String.eqb_spec s "user") as [->|]; [now intros [= <-]|].
  discriminate.
Qed.

(** Message instances in a list are taken as they are, in order. *)
Lemma validate_items_instances (ms : list Message) (i : nat) (w : world) :
  validate_items Message_validator i (map VMessage ms) w = (Ok ms, w).
Proof.
  revert i. induction ms as [|m ms IH]; intros i; [reflexivity|].
  cbn [map validate_items]. run_state. cbn. now rewrite IH.
Qed.

Lemma Message_validator_dump (m : Message) (w : world) :
  Message_validator (Message_model_dump m) w = (Ok m, w).
Proof.
  destruct m as [mid mt mc].
  unfold Message_validator, Message_model_dump, Message_fields,
    with_default_factory, with_default, MessageType_validator.
  run_state. cbn. now rewrite MessageType_of_value_value.
Qed.

(** The JSON objects of messages are read back, in order, and no
    identifier is generated for them. *)
Lemma validate_items_dumps (ms : list Message) (i : nat) (w : world) :
  validate_items Message_validator i (map Message_model_dump ms) w = (Ok ms, w).
Proof.
  revert i. induction ms as [|m ms IH]; intros i; [reflexivity|].
  cbn [map validate_items]. run_state.
  now rewrite Message_validator_dump, IH.
Qed.

(** ** The bits of the identifier *)

Lemma hex_digit_value_digit_of (d : Z) :
  0 <= d < 16 -> hex_digit_value (digit_of d) = Some d.
Proof. intros H. each_digit d H; reflexivity. Qed.

Lemma int_of_hex_from_zero_padded (w : nat) (n acc : Z) :
  int_of_hex_from acc (zero_padded 16 w n) =
  Some (acc * 16 ^ Z.of_nat w + n mod 16 ^ Z.of_nat w).
Proof.
  revert acc. induction w as [|w IH]; intros acc.
  - cbn [zero_padded int_of_hex_from]. rewrite Z.mod_1_r. f_equal.
    change (16 ^ Z.of_nat 0) with 1. lia.
  - cbn [zero_padded int_of_hex_from].
    rewrite hex_digit_value_digit_of by (apply Z.mod_pos_bound; lia).
    rewrite IH, mod_pow_succ by lia.
    replace (Z.of_nat (S w)) with (Z.succ (Z.of_nat w)) by lia.
    rewrite Z.pow_succ_r by lia. f_equal. ring.
Qed.

Lemma int_of_hex_UUID4_hex (bs : list byte) :
  List.length bs = 16%nat ->
  int_of_hex (UUID4_hex bs) = Some (UUID_set_version (int_from_bytes bs) 4).
Proof.
  intros Hl. rewrite UUID4_hex_padded by exact Hl.
  change (int_of_hex (zero_padded 16 32 ?n))
    with (int_of_hex_from 0 (zero_padded 16 32 (UUID_set_version (int_from_bytes bs) 4))).
  rewrite int_of_hex_from_zero_padded, Z.mod_small
    by now apply UUID4_int_bound.
  reflexivity.
Qed.

Lemma testbit_above (x k n : Z) :
  0 <= x < 2 ^ k -> k <= n -> Z.testbit x n = false.
Proof.
  intros [H0 Hx] Hk. destruct (Z.eq_dec x 0) as [->|Hnz].
  - apply Z.bits_0.
  - apply Z.bits_above_log2; [exact H0|].
    assert (Z.log2 x < k); [|lia].
    apply Z.log2_lt_pow2; lia.
Qed.

Lemma testbit_weighted (a x k i : Z) :
  0 <= k -> 0 <= i -> 0 <= x < 2 ^ k ->
  Z.testbit (a * 2 ^ k + x) i =
  if i <? k then Z.testbit x i else Z.testbit a (i - k).
Proof.
  intros Hk Hi Hx.
  assert (Hd : Z.land (Z.shiftl a k) x = 0).
  { apply Z.bits_inj'. intros n Hn. rewrite Z.land_spec, Z.bits_0.
    destruct (Z.lt_ge_cases n k) as [Hlt|Hge].
    - now rewrite Z.shiftl_spec_low.
    - rewrite (testbit_above x k n Hx Hge). apply andb_false_r. }
  rewrite <- Z.shiftl_mul_pow2 by exact Hk.
  rewrite Z.add_nocarry_lxor, Z.lxor_lor by exact Hd.
  rewrite Z.lor_spec. destruct (Z.ltb_spec i k) as [Hlt|Hge].
  - now rewrite Z.shiftl_spec_low.
  - rewrite Z.shiftl_spec by exact Hi.
    rewrite (testbit_above x k i Hx Hge). apply orb_false_r.
Qed.

(** Bit [i] of a big-endian number is bit [i mod 8] of its byte at place
    [length - 1 - i / 8]. *)
Lemma testbit_int_from_bytes (bs : list byte) (i : nat) :
  (i < 8 * List.length bs)%nat ->
  exists b,
    nth_error bs (List.length bs - 1 - i / 8) = Some b /\
    Z.testbit (int_from_bytes bs) (Z.of_nat i) =
    Z.testbit (Z.of_N (Byte.to_N b)) (Z.of_nat (i mod 8)).
Proof.
  induction bs as [|b bs IH]; intros Hi; [cbn in Hi; lia|].
  cbn [List.length] in *.
  unfold int_from_bytes. cbn [fold_left]. rewrite int_from_bytes_fold.
  replace (256 ^ Z.of_nat (List.length bs))
    with (2 ^ (8 * Z.of_nat (List.length bs)))
    by (rewrite Z.pow_mul_r by lia; reflexivity).
  pose proof (int_from_bytes_bound bs) as Hb.
  replace (256 ^ Z.of_nat (List.length bs))
    with (2 ^ (8 * Z.of_nat (List.length bs))) in Hb
    by (rewrite Z.pow_mul_r by lia; reflexivity).
  rewrite testbit_weighted by lia.
  pose proof (Nat.div_mod_eq i 8) as Hdm.
  pose proof (Nat.mod_upper_bound i 8 ltac:(lia)) as Hm.
  destruct (Z.ltb_spec (Z.of_nat i) (8 * Z.of_nat (List.length bs))) as [Hlt|Hge].
  - destruct IH as (b' & Hn & Hbit); [lia|].
    exists b'. split; [|exact Hbit].
    replace (S (List.length bs) - 1 - i / 8)%nat
      with (S (List.length bs - 1 - i / 8))%nat by lia.
    exact Hn.
  - exists b. split.
    + replace (S (List.length bs) - 1 - i / 8)%nat with 0%nat by lia.
      reflexivity.
    + f_equal. lia.
Qed.

Lemma first_draw_nth (w : world) (k : nat) :
  (k < 16)%nat ->
  nth_error (first_draw w) k = Some (entropy w (consumed w + k)%nat).
Proof.
  intros Hk. unfold first_draw, os_urandom. cbn [fst].
  rewrite nth_error_map.
  rewrite (nth_error_nth' (seq 0 16) 0%nat) by (rewrite length_seq; exact Hk).
  rewrite seq_nth by exact Hk. reflexivity.
Qed.

(** The bits of the number drawn are the bits of the entropy source. *)
Lemma testbit_first_draw (w : world) (i : nat) :
  (i < 128)%nat ->
  Z.testbit (int_from_bytes (first_draw w)) (Z.of_nat i) = drawn_bit w i.
Proof.
  intros Hi.
  pose proof (os_urandom_length 16 w) as Hl. fold (first_draw w) in Hl.
  destruct (testbit_int_from_bytes (first_draw w) i) as (b & Hn & Hbit);
    [rewrite Hl; lia|].
  rewrite Hl in Hn. rewrite first_draw_nth in Hn by lia.
  injection Hn as <-. rewrite Hbit. unfold drawn_bit.
  now replace (16 - 1 - i / 8)%nat with (15 - i / 8)%nat by lia.
Qed.

Lemma UUID4_mask_bits (i : nat) :
  (i < 128)%nat ->
  Z.testbit UUID4_random_bits (Z.of_nat i) =
    match fixed_bit i with
    | Some _ => false
    | None => true
    end /\
  Z.testbit UUID4_fixed_bits (Z.of_nat i) =
    match fixed_bit i with
    | Some b => b
    | None => false
    end.
Proof.
  intros Hi.
  do 128 (destruct i as [|i]; [split; vm_compute; reflexivity|]).
  lia.
Qed.

(** Six of the 128 bits are fixed, 122 are drawn. *)
Lemma fixed_bits_count :
  List.length (filter (fun i => match fixed_bit i with
                                | Some _ => false
                                | None => true
                                end) (seq 0 128)) = 122%nat.
Proof. reflexivity. Qed.

(** Bit [i] of the UUID number: fixed by the version and the variant, or
    the bit drawn. *)
Lemma testbit_UUID4 (w : world) (i : nat) :
  (i < 128)%nat ->
  Z.testbit (UUID_set_version (int_from_bytes (first_draw w)) 4) (Z.of_nat i) =
  UUID4_bit w i.
Proof.
  intros Hi. rewrite UUID_set_version_4, Z.lor_spec, Z.land_spec.
  rewrite testbit_first_draw by exact Hi.
  destruct (UUID4_mask_bits i Hi) as [-> ->]. unfold UUID4_bit.
  destruct (fixed_bit i) as [b|]; [now rewrite andb_false_r|].
  now rewrite andb_true_r, orb_false_r.
Qed.

(** The two random numbers agree where they are not overwritten exactly
    when they agree on every bit that is not fixed. *)
Lemma random_bits_agree_iff (w1 w2 : world) :
  Z.land (int_from_bytes (first_draw w1)) UUID4_random_bits =
  Z.land (int_from_bytes (first_draw w2)) UUID4_random_bits <->
  (forall i : nat, (i < 128)%nat -> fixed_bit i = None ->
                   drawn_bit w1 i = drawn_bit w2 i).
Proof.
  split.
  - intros E i Hi Hf.
    apply (f_equal (fun z => Z.testbit z (Z.of_nat i))) in E.
    rewrite !Z.land_spec, !testbit_first_draw in E by exact Hi.
    destruct (UUID4_mask_bits i Hi) as [Hm _]. rewrite Hf in Hm.
    now rewrite Hm, !andb_true_r in E.
  - intros H. apply Z.bits_inj'. intros n Hn.
    rewrite !Z.land_spec.
    destruct (Z.lt_ge_cases n 128) as [Hlt|Hge].
    + replace n with (Z.of_nat (Z.to_nat n)) by lia.
      assert (Hi : (Z.to_nat n < 128)%nat) by lia.
      rewrite !testbit_first_draw by exact Hi.
      destruct (UUID4_mask_bits _ Hi) as [Hm _].
      destruct (fixed_bit (Z.to_nat n)) eqn:Hf.
      * now rewrite Hm, !andb_false_r.
      * now rewrite (H _ Hi Hf).
    + assert (Hb : forall w, Z.testbit (int_from_bytes (first_draw w)) n = false).
      { intros w. apply (testbit_above _ 128); [|exact Hge].
        pose proof (int_from_bytes_bound (first_draw w)) as Hb.
        unfold first_draw in Hb. rewrite os_urandom_length in Hb.
        exact Hb. }
      now rewrite !Hb.
Qed.

Lemma bounded_search (P : nat -> bool) (n : nat) :
  (forall i, (i < n)%nat -> P i = true) \/
  (exists i, (i < n)%nat /\ P i = false).
Proof.
  induction n as [|n [IH|(i & Hi & Hp)]].
  - left. intros i Hi. lia.
  - destruct (P n) eqn:Hp.
    + left. intros i Hi. destruct (Nat.eq_dec i n) as [->|]; [exact Hp|].
      apply IH. lia.
    + right. exists n. split; [lia | exact Hp].
  - right. exists i. split; [lia | exact Hp].
Qed.

(** What the construction of a [Message] without [id] generates. *)
Lemma uuid4_hex_run (w : world) :
  uuid4_hex w = (UUID4_hex (first_draw w), advance w 16).
Proof. reflexivity. Qed.

Lemma Message_new_generated (kw : kwargs) (w w' : world) (m : Message) :
  lookup "id" kw = None ->
  Message_new kw w = (Return m, w') ->
  id m = UUID4_hex (first_draw w) /\ w' = advance w 16.
Proof.
  intros Hl. unfold Message_new, Message_fields, with_default_factory,
    with_default.
  unfold pure_validator, raise_for, ap, fmap, bind, ret.
  rewrite Hl, uuid4_hex_run.
  destruct (lookup "type" kw) as [v2|];
    [destruct (MessageType_validator v2)|];
    (destruct (lookup "content" kw) as [v3|];
     [destruct (str_validator v3)|]);
    cbn [result_ap at_loc]; intros H; try discriminate H;
    injection H as <- <-; cbn [id]; split; reflexivity.
Qed.

(* ================================================================== *)
(** * The claims                                                       *)
(* ================================================================== *)

(** C1. A [Chat] built from [userId="u1"] and no other field has no
    messages, the name "New Chat", a plain [Code] whose three texts are
    empty, and as [createdAt] the naive datetime that the local clock
    shows at the construction: the next reading of the clock, which the
    construction uses up, and nothing else of the world. *)
Theorem Chat_defaults (lax : value -> datetime_object + error_type)
  (kw : kwargs) (w : world) :
  lookup "userId" kw = Some (VStr "u1") ->
  lookup "messages" kw = None ->
  lookup "name" kw = None ->
  lookup "code" kw = None ->
  lookup "createdAt" kw = None ->
  Chat_new lax kw w =
  (Return (mkChat "u1" [] "New Chat" (PlainCode (mkCode "" "" ""))
                  (Naive (clock w (readings w)))),
   mkWorld (entropy w) (consumed w) (clock w) (S (readings w))).
Proof.
  intros Hu Hm Hn Hc Hd.
  unfold Chat_new, Chat_fields, required, with_default, with_default_factory.
  now rewrite Hu, Hm, Hn, Hc, Hd.
Qed.

(** C2. A [Chat] built without [userId] raises a validation failure of
    [Chat] with a line of type [missing] at the field [userId]; the
    outcome is the failure, no [Chat] comes with it. *)
Theorem Chat_userId_required (lax : value -> datetime_object + error_type)
  (kw : kwargs) (w : world) :
  lookup "userId" kw = None ->
  exists es w',
    Chat_new lax kw w = (Raise (mkValidationError "Chat" es), w') /\
    In (mkError missing [Field "userId"]) es.
Proof.
  intros Hl. apply raise_for_raises. unfold Chat_fields.
  do 4 apply ap_raises_l. apply ap_raises_r. cbn [snd ret].
  unfold required. rewrite Hl.
  exists [mkError missing [Field "userId"]], w. cbn. auto.
Qed.

(** C3. A [Message] built without arguments takes the next sixteen bytes
    of the entropy source and nothing else of the world; its [id] is
    thirty-two hexadecimal digits, the digits of the 128-bit number whose
    bits are those of the sixteen bytes, read big-endian, except the six
    that the version 4 and the variant of a UUID fix; its [type] is
    [USER] and its [content] is empty. *)
Theorem Message_defaults (w : world) :
  exists (m : Message) (n : Z),
    Message_new [] w =
      (Return m,
       mkWorld (entropy w) (consumed w + 16)%nat (clock w) (readings w)) /\
    String.length (id m) = 32%nat /\
    string_forall is_hex_digit (id m) = true /\
    int_of_hex (id m) = Some n /\
    (forall i : nat, (i < 128)%nat ->
                     Z.testbit n (Z.of_nat i) = UUID4_bit w i) /\
    type m = USER /\
    content m = "".
Proof.
  exists (mkMessage (UUID4_hex (first_draw w)) USER ""),
         (UUID_set_version (int_from_bytes (first_draw w)) 4).
  cbn [id type content].
  pose proof (UUID4_hex_shape (first_draw w) (os_urandom_length 16 w)) as [Hn Hx].
  split.
  { unfold Message_new, Message_fields, with_default_factory, with_default,
      pure_validator, raise_for, ap, fmap, bind, ret.
    cbn [lookup]. rewrite uuid4_hex_run. reflexivity. }
  split; [exact Hn|]. split; [exact Hx|].
  split; [apply int_of_hex_UUID4_hex, os_urandom_length|].
  split; [intros i Hi; now apply testbit_UUID4|].
  split; reflexivity.
Qed.

(** C4. [MessageType] has exactly the members [AI] and [USER], with the
    values "ai" and "user"; the text "ai" validates to [AI]; every text
    other than the two values is turned down with a line of type [enum],
    and so is a [Message] whose [type] is such a text. *)
Theorem MessageType_closed :
  (forall t : MessageType, t = AI \/ t = USER) /\
  MessageType_value AI = "ai" /\
  MessageType_value USER = "user" /\
  MessageType_validator (VStr "ai") = Ok AI /\
  (forall s : string,
      s <> "ai" -> s <> "user" ->
      MessageType_validator (VStr s) = fail enum /\
      forall (kw : kwargs) (w : world),
        lookup "type" kw = Some (VStr s) ->
        exists es w',
          Message_new kw w = (Raise (mkValidationError "Message" es), w') /\
          In (mkError enum [Field "type"]) es).
Proof.
  split; [intros []; auto|]. do 3 (split; [reflexivity|]).
  intros s Hai Huser.
  assert (Hv : MessageType_validator (VStr s) = fail enum).
  { unfold MessageType_validator, str_validator, MessageType_of_value.
    apply String.eqb_neq in Hai, Huser. now rewrite Hai, Huser. }
  split; [exact Hv|].
  intros kw w Hl. apply raise_for_raises. unfold Message_fields.
  apply ap_raises_l, ap_raises_r.
  unfold with_default. rewrite Hl.
  eapply supplied_raises; [exact Hl|].
  unfold pure_validator, ret. now rewrite Hv.
Qed.

(** C9. A [Chat] built with [code=None] raises a validation failure of
    [Chat] with a line of type [model_type] at the field [code]: the field
    holds a [Code] object, never an absent value. *)
Theorem Chat_code_None_rejected (lax : value -> datetime_object + error_type)
  (kw : kwargs) (w : world) :
  lookup "code" kw = Some VNone ->
  exists es w',
    Chat_new lax kw w = (Raise (mkValidationError "Chat" es), w') /\
    In (mkError model_type [Field "code"]) es.
Proof.
  intros Hl. apply raise_for_raises. unfold Chat_fields.
  apply ap_raises_l, ap_raises_r.
  unfold with_default_factory. rewrite Hl.
  eapply supplied_raises; [exact Hl | reflexivity].
Qed.

(** C10. [Chat] takes a [messages] argument next to [userId], [name],
    [code] and [createdAt]: the messages supplied are the messages of the
    chat, in the order given, whether the other fields are left to their
    defaults or supplied as well. *)
Theorem Chat_messages_supplied (lax : value -> datetime_object + error_type)
  (u n : string) (ms : list Message) (o : CodeInstance)
  (d : datetime_object) (w : world) :
  Chat_new lax [("userId", VStr u); ("messages", VList (map VMessage ms))] w =
  (Return (mkChat u ms "New Chat" (PlainCode (mkCode "" "" ""))
                  (fst (datetime_now w))),
   snd (datetime_now w)) /\
  Chat_new lax [("userId", VStr u); ("messages", VList (map VMessage ms));
                ("name", VStr n); ("code", VCode o);
                ("createdAt", VDatetime d)] w =
  (Return (mkChat u ms n o d), w).
Proof.
  split.
  - unfold Chat_new, Chat_fields, required, with_default,
      with_default_factory, list_validator.
    cbn [lookup String.eqb Ascii.eqb Bool.eqb]. run_state. cbn.
    rewrite validate_items_instances. reflexivity.
  - unfold Chat_new, Chat_fields, required, with_default,
      with_default_factory, list_validator.
    cbn [lookup String.eqb Ascii.eqb Bool.eqb]. run_state. cbn.
    rewrite validate_items_instances. reflexivity.
Qed.

Lemma all_text_lookup (kw : kwargs) (k : string) (v : value) :
  all_text kw = true -> lookup k kw = Some v -> exists s, v = VStr s.
Proof.
  induction kw as [|[k' v'] kw IH]; [discriminate|].
  cbn [all_text forallb lookup snd]. intros Ht Hl.
  apply andb_true_iff in Ht as [Hv Ht].
  destruct (k =? k')%string.
  - injection Hl as <-. destruct v'; try discriminate. eauto.
  - now apply IH.
Qed.

Lemma text_field (name : string) (kw : kwargs) (w : world) :
  all_text kw = true ->
  with_default name (pure_validator str_validator) "" kw w =
  (Ok (text_of name kw), w).
Proof.
  intros Ht. unfold with_default, text_of.
  destruct (lookup name kw) as [v|] eqn:Hl; [|reflexivity].
  destruct (all_text_lookup kw name v Ht Hl) as [s ->]. reflexivity.
Qed.

Lemma Code_fields_text (kw : kwargs) (w : world) :
  all_text kw = true ->
  Code_fields kw w =
  (Ok (mkCode (text_of "html" kw) (text_of "css" kw) (text_of "js" kw)), w).
Proof.
  intros Ht. unfold Code_fields.
  eapply ap_ok; [eapply ap_ok; [eapply ap_ok; [reflexivity|]|]|];
    now apply text_field.
Qed.

(** C6. [Code] and [Response] built from texts, or from nothing, always
    return, every field left out being the empty text; a [Response] built
    from [explanation="done"] alone has empty [html], [css] and [js]; and
    a [Response] stands where a [Code] is expected: it is accepted as the
    [code] of a [Chat], where its [html], [css] and [js] are read. *)
Theorem Code_Response_total (lax : value -> datetime_object + error_type) (kw : kwargs)
  (u : string) (r : Response) (w : world) :
  all_text kw = true ->
  Code_new kw w =
    (Return (mkCode (text_of "html" kw) (text_of "css" kw) (text_of "js" kw)),
     w) /\
  Response_new kw w =
    (Return (mkResponse
               (mkCode (text_of "html" kw) (text_of "css" kw) (text_of "js" kw))
               (text_of "explanation" kw)), w) /\
  Response_new [("explanation", VStr "done")] w =
    (Return (mkResponse (mkCode "" "" "") "done"), w) /\
  exists c,
    Chat_new lax [("userId", VStr u); ("code", VCode (SubResponse r))] w =
      (Return c, snd (datetime_now w)) /\
    html (CodeInstance_as_Code (code c)) = html r /\
    css (CodeInstance_as_Code (code c)) = css r /\
    js (CodeInstance_as_Code (code c)) = js r.
Proof.
  intros Ht. repeat split.
  - unfold Code_new. run_state. now rewrite Code_fields_text.
  - unfold Response_new, Response_fields.
    pose proof (ap_ok (ret (Ok mkResponse)) (Code_fields kw) w w w _ _
                  eq_refl (Code_fields_text kw w Ht)) as H1.
    pose proof (ap_ok _ _ w w w _ _ H1 (text_field "explanation" kw w Ht)) as H2.
    unfold raise_for, fmap, bind. now rewrite H2.
  - exists (mkChat u [] "New Chat" (SubResponse r) (fst (datetime_now w))).
    repeat split.
Qed.

Lemma str_validator_rejected (v : value) :
  rejected (str_validator v) = negb (is_text v).
Proof.
  destruct v; try reflexivity; cbn; now destruct (utf8_valid bs).
Qed.

Lemma MessageType_validator_accepts (v : value) :
  is_message_type v = true -> rejected (MessageType_validator v) = false.
Proof.
  destruct v; try discriminate; [|reflexivity].
  cbn. unfold MessageType_of_value.
  destruct (s =? "ai")%string; [reflexivity|].
  now destruct (s =? "user")%string.
Qed.

Lemma MessageType_validator_rejects (v : value) :
  is_message_type v = false -> is_utf8_bytes v = false ->
  rejected (MessageType_validator v) = true.
Proof.
  destruct v; try reflexivity; try discriminate; cbn.
  - unfold MessageType_of_value.
    destruct (s =? "ai")%string; [discriminate|].
    now destruct (s =? "user")%string.
  - now intros _ ->.
  - now intros _ ->.
Qed.

(** C7, as amended.  A [content] that is neither a [str] nor a [bytes]
    or [bytearray] object holding well-formed UTF-8 makes the construction
    of a [Message] fail, with a line at the field [content], and so does
    such an [id]; and the construction fails only when a value is supplied
    for [id] or for [content] that is no such text, or for [type] that is
    neither a member of [MessageType] nor the text "ai" or "user": no
    field is required and keys that are not fields are ignored. *)
Theorem Message_failure_conditions (kw : kwargs) (w : world) :
  (forall v : value,
      lookup "content" kw = Some v ->
      is_str v = false ->
      is_utf8_bytes v = false ->
      exists es w',
        Message_new kw w = (Raise (mkValidationError "Message" es), w') /\
        exists t, In (mkError t [Field "content"]) es) /\
  ((exists e w', Message_new kw w = (Raise e, w')) ->
   supplied_bad "id" is_text kw
   || supplied_bad "type" is_message_type kw
   || supplied_bad "content" is_text kw = true) /\
  (supplied_bad "id" is_text kw || supplied_bad "content" is_text kw = true ->
   exists e w', Message_new kw w = (Raise e, w')) /\
  (forall v : value,
      lookup "type" kw = Some v ->
      is_message_type v = false ->
      is_utf8_bytes v = false ->
      exists e w', Message_new kw w = (Raise e, w')).
Proof.
  assert (Hiff : (exists e w', Message_new kw w = (Raise e, w')) <->
                 field_rejected "id" str_validator kw
                 || field_rejected "type" MessageType_validator kw
                 || field_rejected "content" str_validator kw = true).
  { unfold Message_new, Message_fields, with_default_factory, with_default,
      field_rejected.
    unfold pure_validator, raise_for, ap, fmap, bind, ret.
    destruct (lookup "id" kw) as [v1|];
      [destruct (str_validator v1)|];
      (destruct (lookup "type" kw) as [v2|];
       [destruct (MessageType_validator v2)|]);
      (destruct (lookup "content" kw) as [v3|];
       [destruct (str_validator v3)|]);
      cbv beta iota; rewrite ?uuid4_hex_run;
      cbn [result_ap at_loc rejected orb]; split;
      solve [ reflexivity
            | discriminate
            | intros (e & w' & [=])
            | intros _; eexists _, _; reflexivity ]. }
  split; [|split; [|split]].
  - intros v Hl Hs Hb.
    assert (Hv : exists t, str_validator v = fail t).
    { destruct v; try discriminate Hs; try (eexists; reflexivity);
        cbn in Hb |- *; rewrite Hb; eexists; reflexivity. }
    destruct Hv as [t Hv].
    destruct (raise_for_raises "Message" (Message_fields kw) w
                (mkError t [Field "content"])) as (es & w' & Hr & Hin).
    { unfold Message_fields. apply ap_raises_r.
      unfold with_default. rewrite Hl.
      eapply supplied_raises; [exact Hl|].
      unfold pure_validator, ret. now rewrite Hv. }
    exists es, w'. split; [exact Hr | now exists t].
  - intros H. apply Hiff in H. unfold field_rejected, supplied_bad in *.
    rewrite !orb_true_iff in *.
    destruct H as [[H|H]|H].
    + left; left. destruct (lookup "id" kw); [|discriminate].
      now rewrite <- str_validator_rejected.
    + left; right. destruct (lookup "type" kw) as [v|]; [|discriminate].
      destruct (is_message_type v) eqn:E; [|reflexivity].
      now rewrite MessageType_validator_accepts in H.
    + right. destruct (lookup "content" kw); [|discriminate].
      now rewrite <- str_validator_rejected.
  - intros H. apply Hiff. unfold field_rejected, supplied_bad in *.
    rewrite !orb_true_iff in *.
    destruct H as [H|H].
    + left; left. destruct (lookup "id" kw); [|discriminate].
      now rewrite str_validator_rejected.
    + right. destruct (lookup "content" kw); [|discriminate].
      now rewrite str_validator_rejected.
  - intros v Hl Hm Hb. apply Hiff. unfold field_rejected.
    rewrite Hl, (MessageType_validator_rejects v Hm Hb).
    now rewrite orb_true_r.
Qed.

(** C8, as amended.  Of two successive constructions of a [Message]
    without [id] that both return, the second takes the sixteen bytes of
    entropy that follow those of the first, and the two identifiers
    differ exactly when the two draws differ in one of the 122 bits that
    the version and the variant do not fix; nothing checks that they
    do. *)
Theorem successive_ids_distinct_iff (kw1 kw2 : kwargs) (w w1 w2 : world)
  (m1 m2 : Message) :
  lookup "id" kw1 = None ->
  lookup "id" kw2 = None ->
  Message_new kw1 w = (Return m1, w1) ->
  Message_new kw2 w1 = (Return m2, w2) ->
  entropy w1 = entropy w /\
  consumed w1 = (consumed w + 16)%nat /\
  (id m1 <> id m2 <->
   exists i : nat,
     (i < 128)%nat /\ fixed_bit i = None /\ drawn_bit w i <> drawn_bit w1 i).
Proof.
  intros Hl1 Hl2 H1 H2.
  destruct (Message_new_generated kw1 w w1 m1 Hl1 H1) as [E1 Ew].
  destruct (Message_new_generated kw2 w1 w2 m2 Hl2 H2) as [E2 _].
  split; [now rewrite Ew|]. split; [now rewrite Ew|].
  rewrite E1, E2.
  pose proof (UUID4_hex_eq_iff (first_draw w) (first_draw w1)
                (os_urandom_length 16 w) (os_urandom_length 16 w1)) as Hid.
  pose proof (random_bits_agree_iff w w1) as Hbits.
  split.
  - intros Hne.
    destruct (bounded_search
                (fun i => match fixed_bit i with
                          | None => Bool.eqb (drawn_bit w i) (drawn_bit w1 i)
                          | Some _ => true
                          end) 128) as [Hall|(i & Hi & Hp)].
    + elim Hne. apply Hid, Hbits. intros i Hi Hf.
      specialize (Hall i Hi). rewrite Hf in Hall.
      now apply Bool.eqb_prop.
    + exists i. split; [exact Hi|].
      destruct (fixed_bit i); [discriminate Hp|]. split; [reflexivity|].
      intros E. rewrite E, Bool.eqb_reflx in Hp. discriminate Hp.
  - intros (i & Hi & Hf & Hd) E. apply Hd.
    now apply (proj1 Hbits (proj1 Hid E)).
Qed.

(** ** Reading back what was written *)

Lemma Code_validator_dump (k : Code) (w : world) :
  Code_validator (Code_model_dump k) w = (Ok (PlainCode k), w).
Proof. now destruct k. Qed.

Lemma append_assoc (a b c : string) : (a ++ b) ++ c = a ++ (b ++ c).
Proof. induction a as [|x a IH]; cbn; [reflexivity | now rewrite IH]. Qed.

Lemma take_fraction_then_format (us : Z) (r : string) :
  0 <= us < 1000000 ->
  match r with
  | String c _ => Ascii.eqb c "." = false
  | EmptyString => True
  end ->
  take_fraction_then
    ((if us =? 0 then "" else "." ++ format_int 10 6 us) ++ r) = Some (us, r).
Proof.
  intros H Hr. destruct (Z.eqb_spec us 0) as [->|Hnz].
  - cbn [append]. destruct r as [|c r]; [reflexivity|].
    cbn [take_fraction_then]. now rewrite Hr.
  - cbn [append take_fraction_then]. rewrite Ascii.eqb_refl.
    apply take_digits_format; [lia|].
    change (10 ^ Z.of_nat 6) with 1000000. lia.
Qed.

Lemma parse_utcoffset_text (off : Z) :
  -1440 < off < 1440 ->
  parse_utcoffset (utcoffset_text off) = Some (Some off).
Proof.
  intros H. unfold utcoffset_text.
  destruct (Z.eqb_spec off 0) as [->|Hnz]; [reflexivity|].
  pose proof (Z.div_mod (Z.abs off) 60 ltac:(lia)) as Hdm.
  pose proof (Z.mod_pos_bound (Z.abs off) 60 ltac:(lia)) as Hm.
  assert (Hh : 0 <= Z.abs off / 60 < 24).
  { split; [apply Z.div_pos; lia|]. apply Z.div_lt_upper_bound; lia. }
  rewrite <- (append_empty_r (format_int 10 2 (Z.abs off mod 60))).
  destruct (Z.ltb_spec off 0) as [Hneg|Hpos];
    cbn [append parse_utcoffset];
    simpl (Ascii.eqb _ _); cbn [orb];
    rewrite take_digits_format
      by (try lia; change (10 ^ Z.of_nat 2) with 100; lia);
    cbn [expect]; rewrite Ascii.eqb_refl;
    rewrite take_digits_format
      by (try lia; change (10 ^ Z.of_nat 2) with 100; lia);
    (replace (Z.abs off / 60 <? 24) with true by (symmetry; apply Z.ltb_lt; lia));
    (replace (Z.abs off mod 60 <? 60) with true by (symmetry; apply Z.ltb_lt; lia));
    cbn [andb].
  - replace (-1 * (Z.abs off / 60 * 60 + Z.abs off mod 60)) with off by lia.
    apply Z.eqb_neq in Hnz. rewrite Hnz. reflexivity.
  - replace (1 * (Z.abs off / 60 * 60 + Z.abs off mod 60)) with off by lia.
    apply Z.eqb_neq in Hnz. rewrite Hnz. reflexivity.
Qed.

Lemma utcoffset_text_no_dot (off : Z) :
  match utcoffset_text off with
  | String c _ => Ascii.eqb c "." = false
  | EmptyString => True
  end.
Proof.
  unfold utcoffset_text.
  destruct (off =? 0); [reflexivity|]. destruct (off <? 0); reflexivity.
Qed.

Lemma parse_datetime_text_isoformat (d : datetime) (r : string)
  (tz : option Z) :
  datetime_ok d = true ->
  match r with
  | String c _ => Ascii.eqb c "." = false
  | EmptyString => True
  end ->
  parse_utcoffset r = Some tz ->
  parse_datetime_text (isoformat d ++ r) =
  Some (match tz with
        | None => Naive d
        | Some off => Aware d off
        end).
Proof.
  intros Hok Hr Htz.
  destruct (datetime_ok_bounds_of d Hok) as (Hy & Hmo & Hd & Hh & Hmi & Hs & Hus).
  destruct d as [y mo dd h mi s us].
  cbn [year month day hour minute second microsecond] in *.
  unfold parse_datetime_text, isoformat.
  cbn [year month day hour minute second microsecond].
  rewrite !append_assoc.
  rewrite take_digits_format by (change (10 ^ Z.of_nat 4) with 10000; lia).
  rewrite expect_append.
  rewrite take_digits_format by (change (10 ^ Z.of_nat 2) with 100; lia).
  rewrite expect_append.
  rewrite take_digits_format by (change (10 ^ Z.of_nat 2) with 100; lia).
  rewrite expect_append.
  rewrite take_digits_format by (change (10 ^ Z.of_nat 2) with 100; lia).
  rewrite expect_append.
  rewrite take_digits_format by (change (10 ^ Z.of_nat 2) with 100; lia).
  rewrite expect_append.
  rewrite take_digits_format by (change (10 ^ Z.of_nat 2) with 100; lia).
  rewrite take_fraction_then_format by (lia || exact Hr).
  now rewrite Htz, Hok.
Qed.

(** Reading the JSON form of a datetime object gives the object back. *)
Lemma parse_datetime_text_text (o : datetime_object) :
  datetime_object_ok o = true -> parse_datetime_text (datetime_text o) = Some o.
Proof.
  destruct o as [d|d off]; cbn [datetime_object_ok datetime_text]; intros Hok.
  - rewrite <- (append_empty_r (isoformat d)).
    now apply (parse_datetime_text_isoformat d "" None).
  - apply andb_true_iff in Hok as [Hok Hhi].
    apply andb_true_iff in Hok as [Hok Hlo].
    apply Z.ltb_lt in Hhi, Hlo.
    apply (parse_datetime_text_isoformat d (utcoffset_text off) (Some off));
      [exact Hok | apply utcoffset_text_no_dot
       | apply parse_utcoffset_text; lia].
Qed.

Lemma datetime_validator_text (lax : value -> datetime_object + error_type)
  (o : datetime_object) :
  datetime_object_ok o = true ->
  datetime_validator lax (VStr (datetime_text o)) = Ok o.
Proof.
  intros Hok. unfold datetime_validator.
  now rewrite parse_datetime_text_text.
Qed.

Lemma Chat_fields_dump (lax : value -> datetime_object + error_type)
  (c : Chat) (w : world) :
  datetime_object_ok (createdAt c) = true ->
  is_plain (code c) = true ->
  match Chat_model_dump c with
  | VDict kw => Chat_fields lax kw w = (Ok c, w)
  | _ => False
  end.
Proof.
  destruct c as [u ms n [k|r] d]; cbn [createdAt code is_plain];
    intros Hok Hp; [clear Hp | discriminate Hp].
  unfold Chat_model_dump, Chat_fields.
  cbn [userId messages name code createdAt CodeInstance_as_Code].
  eapply ap_ok; [eapply ap_ok; [eapply ap_ok; [eapply ap_ok;
    [eapply ap_ok; [reflexivity|]|]|]|]|].
  - reflexivity.
  - unfold with_default, list_validator.
    cbn [lookup String.eqb Ascii.eqb Bool.eqb]. run_state.
    now rewrite validate_items_dumps.
  - reflexivity.
  - unfold with_default_factory.
    cbn [lookup String.eqb Ascii.eqb Bool.eqb]. run_state.
    now rewrite Code_validator_dump.
  - unfold with_default_factory.
    cbn [lookup String.eqb Ascii.eqb Bool.eqb]. run_state.
    now rewrite datetime_validator_text.
Qed.


(* ================================================================== *)
(** * Examples                                                         *)
(* ================================================================== *)

(** C1 at [Chat(userId="u1")], seven seconds past noon by the clock. *)
Lemma Chat_defaults_example :
  Chat_new no_lax [("userId", VStr "u1")] ticking_world =
  (Return (mkChat "u1" [] "New Chat" (PlainCode (mkCode "" "" ""))
                  (Naive (mkDatetime 2024 5 6 12 0 7 0))),
   mkWorld (entropy ticking_world) 0 (clock ticking_world) 8).
Proof.
  apply (Chat_defaults no_lax [("userId", VStr "u1")] ticking_world);
    reflexivity.
Defined.

(** C2 at [Chat()]. *)
Lemma Chat_userId_required_example :
  exists es w',
    Chat_new no_lax [] stuck_world = (Raise (mkValidationError "Chat" es), w') /\
    In (mkError missing [Field "userId"]) es.
Proof. apply (Chat_userId_required no_lax [] stuck_world). reflexivity. Defined.

(** C4 at the text "bot". *)
Lemma MessageType_bot_rejected :
  MessageType_validator (VStr "bot") = fail enum.
Proof.
  destruct MessageType_closed as (_ & _ & _ & _ & H).
  apply (H "bot"); discriminate.
Defined.

(** C6 at [explanation="done"]. *)
Lemma Response_done_example :
  Response_new [("explanation", VStr "done")] stuck_world =
  (Return done_response, stuck_world).
Proof.
  apply (Code_Response_total no_lax [("explanation", VStr "done")] "u1"
           done_response stuck_world).
  reflexivity.
Defined.

(** C7, as amended, at [content=3]. *)
Lemma Message_content_int_rejected :
  exists es w',
    Message_new [("content", VInt 3)] stuck_world =
      (Raise (mkValidationError "Message" es), w') /\
    exists t, In (mkError t [Field "content"]) es.
Proof.
  apply (proj1 (Message_failure_conditions [("content", VInt 3)] stuck_world)
           (VInt 3)).
  - reflexivity.
  - reflexivity.
  - reflexivity.
Defined.

(** C3 at the world whose entropy counts up: bit 8 of the identifier. *)
Lemma Message_defaults_example :
  exists (m : Message) (n : Z),
    int_of_hex (id m) = Some n /\
    Z.testbit n 8 = UUID4_bit counting_world 8.
Proof.
  destruct (Message_defaults counting_world)
    as (m & n & _ & _ & _ & Hn & Hb & _).
  exists m, n. split; [exact Hn|].
  apply (Hb 8%nat). apply Nat.ltb_lt. reflexivity.
Defined.

(** C8, as amended, at two messages built in the world whose entropy
    counts up. *)
Lemma successive_ids_example :
  "000102030405460788090a0b0c0d0e0f" <> "101112131415461798191a1b1c1d1e1f" <->
  exists i : nat,
    (i < 128)%nat /\ fixed_bit i = None /\
    drawn_bit counting_world i <> drawn_bit (advance counting_world 16) i.
Proof.
  refine (proj2 (proj2 (successive_ids_distinct_iff
            [] [("content", VStr "hi")]
            counting_world (advance counting_world 16)
            (advance counting_world 32)
            (mkMessage "000102030405460788090a0b0c0d0e0f" USER "")
            (mkMessage "101112131415461798191a1b1c1d1e1f" USER "hi")
            eq_refl eq_refl _ _)));
    vm_compute; reflexivity.
Defined.

(** C7 as written fails: [bytes] are not a [str], yet [content=b"hi"] is
    accepted and decoded. *)
Lemma Message_content_bytes_accepted :
  is_str (VBytes [x68; x69]) = false /\
  fst (Message_new [("content", VBytes [x68; x69])] stuck_world) =
  Return (mkMessage "00000000000040008000000000000000" USER "hi").
Proof. split; reflexivity. Qed.

(** C8 as written fails: when the entropy source yields the same sixteen
    bytes twice, two successive messages carry the same identifier. *)
Lemma successive_ids_collide :
  exists m1 m2 w1 w2,
    Message_new [] stuck_world = (Return m1, w1) /\
    Message_new [] w1 = (Return m2, w2) /\
    id m1 = id m2.
Proof.
  exists (mkMessage "00000000000040008000000000000000" USER ""),
         (mkMessage "00000000000040008000000000000000" USER "").
  eexists _, _. repeat split.
Qed.

(** C9 at [Chat(userId="u1", code=None)]. *)
Lemma Chat_code_None_example :
  exists es w',
    Chat_new no_lax [("userId", VStr "u1"); ("code", VNone)] stuck_world =
      (Raise (mkValidationError "Chat" es), w') /\
    In (mkError model_type [Field "code"]) es.
Proof.
  apply (Chat_code_None_rejected no_lax
           [("userId", VStr "u1"); ("code", VNone)] stuck_world).
  reflexivity.
Defined.



(** When the entropy source does not repeat itself, the two identifiers
    differ. *)
Lemma counting_world_ids_differ :
  UUID4_hex (first_draw counting_world) = "000102030405460788090a0b0c0d0e0f" /\
  UUID4_hex (second_draw counting_world) = "101112131415461798191a1b1c1d1e1f".
Proof. split; vm_compute; reflexivity. Qed.

(* ================================================================== *)
(** * Further properties of the models                                 *)
(* ================================================================== *)

(** ** Reports *)

Lemma ap_fst {A B : Type} (mf : State (result (A -> B)))
  (ma : State (result A)) (w : world) :
  fst ((mf <*> ma) w) = result_ap (fst (mf w)) (fst (ma (snd (mf w)))).
Proof.
  run_state. destruct (mf w) as [rf w1]. cbn [fst snd].
  now destruct (ma w1).
Qed.

Lemma ap_snd {A B : Type} (mf : State (result (A -> B)))
  (ma : State (result A)) (w : world) :
  snd ((mf <*> ma) w) = snd (ma (snd (mf w))).
Proof.
  run_state. destruct (mf w) as [rf w1]. cbn [fst snd].
  now destruct (ma w1).
Qed.

Lemma fmap_fst {A B : Type} (f : A -> B) (m : State A) (w : world) :
  fst (fmap f m w) = f (fst (m w)).
Proof. run_state. now destruct (m w). Qed.

Lemma fmap_snd {A B : Type} (f : A -> B) (m : State A) (w : world) :
  snd (fmap f m w) = snd (m w).
Proof. run_state. now destruct (m w). Qed.

Lemma reports_lines {A : Type} (r : result A) (es : list error) :
  reports r es -> lines r = es.
Proof. destruct r; cbn; intuition congruence. Qed.

Lemma reports_Ok {A : Type} (r : result A) :
  reports r [] -> exists a, r = Ok a.
Proof. destruct r as [a|es]; cbn; [eauto | intros [_ H]; now elim H]. Qed.

Lemma reports_Err {A : Type} (r : result A) (es : list error) :
  reports r es -> es <> [] -> r = Err es.
Proof.
  destruct r as [a|es']; cbn; [congruence | intros [-> _] _; reflexivity].
Qed.

Lemma reports_ap {A B : Type} (rf : result (A -> B)) (ra : result A)
  (e1 e2 : list error) :
  reports rf e1 -> reports ra e2 -> reports (result_ap rf ra) (e1 ++ e2).
Proof.
  destruct rf as [f|es1], ra as [a|es2]; cbn.
  - now intros -> ->.
  - intros -> [-> H]. now split.
  - intros [-> H] ->. rewrite app_nil_r. now split.
  - intros [-> H1] [-> H2]. split; [reflexivity|].
    intros E. apply app_eq_nil in E. tauto.
Qed.

Lemma prefix_loc_nil_iff (l : loc_item) (es : list error) :
  prefix_loc l es = [] <-> es = [].
Proof. destruct es; cbn; split; congruence. Qed.

Lemma reports_at_loc {A : Type} (l : loc_item) (r : result A)
  (es : list error) :
  reports r es -> reports (at_loc l r) (prefix_loc l es).
Proof.
  destruct r as [a|es']; cbn.
  - now intros ->.
  - intros [-> H]. split; [reflexivity|]. now rewrite prefix_loc_nil_iff.
Qed.

Lemma reports_map {A B : Type} (f : A -> B) (r : result A)
  (es : list error) :
  reports r es -> reports (result_map f r) es.
Proof. now destruct r. Qed.

Lemma str_validator_reports (v : value) :
  reports (str_validator v) (lines (str_validator v)).
Proof.
  destruct v; cbn; try (split; [reflexivity | discriminate]); try reflexivity;
    destruct (utf8_valid bs); cbn;
    reflexivity || (split; [reflexivity | discriminate]).
Qed.

Lemma MessageType_validator_reports (v : value) :
  reports (MessageType_validator v) (lines (MessageType_validator v)).
Proof.
  unfold MessageType_validator.
  destruct v; try reflexivity;
    destruct (str_validator _) as [s'|es];
    try destruct (MessageType_of_value s');
    cbn; try reflexivity; split; reflexivity || discriminate.
Qed.

Lemma datetime_validator_reports (lax : value -> datetime_object + error_type)
  (v : value) :
  reports (datetime_validator lax v) (lines (datetime_validator lax v)).
Proof.
  unfold datetime_validator.
  destruct v; try reflexivity;
    try destruct (parse_datetime_text s);
    try destruct (lax _);
    cbn; try reflexivity; split; reflexivity || discriminate.
Qed.

(** A supplied field reports what its validator reports, located at the
    field; a field left out reports nothing. *)
Lemma with_default_reports {A : Type} (name : string)
  (f : value -> result A) (d : A) (kw : kwargs) (w : world) :
  (forall v, reports (f v) (lines (f v))) ->
  reports (fst (with_default name (pure_validator f) d kw w))
          (field_lines name f kw) /\
  snd (with_default name (pure_validator f) d kw w) = w.
Proof.
  intros Hf. unfold with_default, field_lines.
  destruct (lookup name kw) as [v|]; [|now split].
  split; [|reflexivity]. cbn. apply reports_at_loc, Hf.
Qed.

Lemma required_reports {A : Type} (name : string)
  (f : value -> result A) (kw : kwargs) (w : world) :
  (forall v, reports (f v) (lines (f v))) ->
  reports (fst (required name (pure_validator f) kw w))
          (required_lines name f kw) /\
  snd (required name (pure_validator f) kw w) = w.
Proof.
  intros Hf. unfold required, required_lines.
  destruct (lookup name kw) as [v|].
  - split; [|reflexivity]. cbn. apply reports_at_loc, Hf.
  - split; [|reflexivity]. cbn. split; [reflexivity | discriminate].
Qed.

Lemma Message_fields_reports (kw : kwargs) (w : world) :
  reports (fst (Message_fields kw w)) (Message_lines kw).
Proof.
  unfold Message_fields, Message_lines.
  rewrite !ap_fst, !ap_snd. cbn [ret fst snd].
  set (w1 := snd (with_default_factory "id" _ _ kw w)).
  set (w2 := snd (with_default "type" _ _ kw w1)).
  rewrite app_assoc.
  apply reports_ap;
    [apply reports_ap|
     apply (with_default_reports "content" str_validator "" kw w2),
       str_validator_reports].
  - change (field_lines "id" str_validator kw)
      with (List.app (@nil error) (field_lines "id" str_validator kw)).
    apply reports_ap; [reflexivity|].
    unfold with_default_factory, field_lines.
    destruct (lookup "id" kw) as [v|]; [|reflexivity].
    cbn. apply reports_at_loc, str_validator_reports.
  - apply (with_default_reports "type" MessageType_validator USER kw w1),
      MessageType_validator_reports.
Qed.

Lemma Message_fields_world (kw : kwargs) (w : world) :
  snd (Message_fields kw w) =
  match lookup "id" kw with
  | Some _ => w
  | None => advance w 16
  end.
Proof.
  unfold Message_fields. rewrite !ap_snd. cbn [ret fst snd].
  rewrite (proj2 (with_default_reports "content" str_validator "" kw _
                    str_validator_reports)).
  rewrite (proj2 (with_default_reports "type" MessageType_validator USER kw _
                    MessageType_validator_reports)).
  unfold with_default_factory. now destruct (lookup "id" kw).
Qed.

Lemma Code_fields_reports (kw : kwargs) (w : world) :
  reports (fst (Code_fields kw w)) (Code_lines kw) /\
  snd (Code_fields kw w) = w.
Proof.
  unfold Code_fields, Code_lines.
  rewrite !ap_fst, !ap_snd. cbn [ret fst snd].
  pose proof (fun n w => with_default_reports n str_validator "" kw w
                           str_validator_reports) as H.
  rewrite !(proj2 (H _ _)). split; [|reflexivity].
  rewrite app_assoc.
  apply reports_ap; [apply reports_ap|]; try apply H.
  change (field_lines "html" str_validator kw)
    with (List.app (@nil error) (field_lines "html" str_validator kw)).
  apply reports_ap; [reflexivity | apply H].
Qed.

Lemma Response_fields_reports (kw : kwargs) (w : world) :
  reports (fst (Response_fields kw w)) (Response_lines kw) /\
  snd (Response_fields kw w) = w.
Proof.
  unfold Response_fields, Response_lines.
  rewrite !ap_fst, !ap_snd. cbn [ret fst snd].
  destruct (Code_fields_reports kw w) as [Hc Hw]. rewrite Hw.
  destruct (with_default_reports "explanation" str_validator "" kw w
              str_validator_reports) as [He Hw'].
  rewrite Hw'. split; [|reflexivity].
  apply reports_ap; [|exact He].
  change (Code_lines kw) with (List.app (@nil error) (Code_lines kw)).
  apply reports_ap; [reflexivity | exact Hc].
Qed.

(** What a class call returns or raises, from the report of its fields. *)
Lemma raise_for_reports {A : Type} (cls : string) (m : State (result A))
  (w : world) (es : list error) :
  reports (fst (m w)) es ->
  match fst (raise_for cls m w) with
  | Return _ => es = []
  | Raise e => e = mkValidationError cls es /\ es <> []
  end.
Proof.
  unfold raise_for. rewrite fmap_fst.
  destruct (fst (m w)) as [a|es']; cbn; [auto|].
  intros [-> H]. now split.
Qed.

(** X1. [Prompt] needs its [input]: without it the call raises the single
    line [missing] at [input]; with a value it raises what the [str]
    validator reports there, or returns the prompt holding the validated
    text.  The world is not touched. *)
Theorem Prompt_input_required (kw : kwargs) (w : world) :
  snd (Prompt_new kw w) = w /\
  match lookup "input" kw with
  | None =>
      fst (Prompt_new kw w) =
      Raise (mkValidationError "Prompt" [mkError missing [Field "input"]])
  | Some v =>
      match str_validator v with
      | Ok s => fst (Prompt_new kw w) = Return (mkPrompt s)
      | Err es =>
          fst (Prompt_new kw w) =
          Raise (mkValidationError "Prompt" (prefix_loc (Field "input") es))
      end
  end.
Proof.
  unfold Prompt_new, Prompt_fields, required. run_state.
  destruct (lookup "input" kw) as [v|]; [|split; reflexivity].
  destruct (str_validator v); split; reflexivity.
Qed.

(** X2. Whether the construction of a [Message] fails, and with which
    lines, is decided by the arguments alone: the lines are those of [id],
    [type] and [content], in the order declared, each at its field. *)
Theorem Message_report (kw : kwargs) (w : world) :
  match fst (Message_new kw w) with
  | Return _ => Message_lines kw = []
  | Raise e =>
      e = mkValidationError "Message" (Message_lines kw) /\
      Message_lines kw <> []
  end.
Proof. apply raise_for_reports, Message_fields_reports. Qed.

(** X3. The identifier factory runs exactly when [id] is left out, also
    when the construction then fails on another field: sixteen bytes of
    entropy are taken in that case and none otherwise; an [id] supplied
    as a text is the [id] of the message. *)
Theorem Message_id_generated_when_omitted (kw : kwargs) (w : world) :
  snd (Message_new kw w) =
    match lookup "id" kw with
    | Some _ => w
    | None => advance w 16
    end /\
  (forall (s : string) (m : Message),
      lookup "id" kw = Some (VStr s) ->
      fst (Message_new kw w) = Return m ->
      id m = s).
Proof.
  split.
  - unfold Message_new, raise_for. rewrite fmap_snd.
    apply Message_fields_world.
  - intros s m Hl. unfold Message_new, raise_for. rewrite fmap_fst.
    unfold Message_fields. rewrite !ap_fst. cbn [ret fst snd].
    unfold with_default_factory. rewrite Hl. cbn.
    destruct (fst (with_default "type" _ _ kw _)) as [t|];
      destruct (fst (with_default "content" _ _ kw _)) as [c|];
      cbn; intros [= <-]; reflexivity.
Qed.

(** X4. [Response] extends [Code]: its call reports the lines of [html],
    [css] and [js] first and those of [explanation] after them, as a
    function of the arguments alone; when it returns, the call of [Code]
    on the same arguments returns its [Code] part, and when the call of
    [Code] raises, so does that of [Response], with the same lines
    first. *)
Theorem Response_extends_Code (kw : kwargs) (w : world) :
  match fst (Response_new kw w) with
  | Return _ => Response_lines kw = []
  | Raise e =>
      e = mkValidationError "Response" (Response_lines kw) /\
      Response_lines kw <> []
  end /\
  (forall r : Response,
      fst (Response_new kw w) = Return r ->
      fst (Code_new kw w) = Return (Response_as_Code r)) /\
  (forall e : ValidationError,
      fst (Code_new kw w) = Raise e ->
      exists es,
        fst (Response_new kw w) =
        Raise (mkValidationError "Response" (errors e ++ es))).
Proof.
  split; [apply raise_for_reports, Response_fields_reports|].
  unfold Response_new, Code_new, raise_for. rewrite !fmap_fst.
  unfold Response_fields. rewrite !ap_fst, !ap_snd. cbn [ret fst snd].
  destruct (fst (Code_fields kw w)) as [c|es1];
    destruct (fst (with_default "explanation" _ _ kw _)) as [x|es2]; cbn;
    split; intros ? [= <-]; try reflexivity.
  - exists []. cbn. now rewrite app_nil_r.
  - exists es2. reflexivity.
Qed.

(** ** The report and the effects of [Chat] *)

Lemma advance_0 (w : world) : advance w 0 = w.
Proof. destruct w. unfold advance. cbn. now rewrite Nat.add_0_r. Qed.

Lemma advance_advance (w : world) (a b : nat) :
  advance (advance w a) b = advance w (a + b).
Proof. unfold advance. cbn. now rewrite Nat.add_assoc. Qed.

Lemma tick_0 (w : world) : tick w 0 = w.
Proof. destruct w. unfold tick. cbn. now rewrite Nat.add_0_r. Qed.

Lemma Message_validator_reports (v : value) (w : world) :
  reports (fst (Message_validator v w)) (Message_value_lines v).
Proof.
  destruct v; cbn; try reflexivity; try (split; [reflexivity | discriminate]).
  apply Message_fields_reports.
Qed.

Lemma Message_validator_world (v : value) (w : world) :
  snd (Message_validator v w) = if needs_id v then advance w 16 else w.
Proof.
  destruct v; try reflexivity. cbn [Message_validator needs_id].
  rewrite Message_fields_world. now destruct (lookup "id" d).
Qed.

Lemma validate_items_world (l : list value) (i : nat) (w : world) :
  snd (validate_items Message_validator i l w) =
  advance w (16 * List.length (filter needs_id l)).
Proof.
  revert i w. induction l as [|v l IH]; intros i w.
  - cbn. now rewrite advance_0.
  - cbn [validate_items filter]. rewrite !ap_snd. cbn [ret snd].
    rewrite IH, fmap_snd, Message_validator_world.
    destruct (needs_id v); [|reflexivity].
    rewrite advance_advance. f_equal. cbn [List.length]. lia.
Qed.

Lemma validate_items_reports (l : list value) (i : nat) (w : world) :
  reports (fst (validate_items Message_validator i l w)) (items_lines i l).
Proof.
  revert i w. induction l as [|v l IH]; intros i w; [reflexivity|].
  cbn [validate_items items_lines]. rewrite !ap_fst, !ap_snd.
  cbn [ret fst snd]. rewrite fmap_fst.
  apply reports_ap; [|apply IH].
  change (prefix_loc (Index i) (Message_value_lines v))
    with (List.app (@nil error) (prefix_loc (Index i) (Message_value_lines v))).
  apply reports_ap; [reflexivity|].
  apply reports_at_loc, Message_validator_reports.
Qed.

Lemma messages_field (kw : kwargs) (w : world) :
  reports (fst (with_default "messages" (list_validator Message_validator)
                  [] kw w)) (messages_lines kw) /\
  snd (with_default "messages" (list_validator Message_validator) [] kw w) =
  advance w (16 * generated_ids kw).
Proof.
  unfold with_default, messages_lines, generated_ids.
  destruct (lookup "messages" kw) as [v|];
    [|split; [reflexivity | now rewrite advance_0]].
  rewrite fmap_fst, fmap_snd.
  destruct v; cbn [list_validator ret fst snd];
    try (split; [split; [reflexivity | discriminate] | now rewrite advance_0]);
    (split; [|apply validate_items_world];
     apply reports_at_loc, validate_items_reports).
Qed.

Lemma code_field (kw : kwargs) (w : world) :
  reports (fst (with_default_factory "code" Code_validator Code_factory kw w))
          (code_lines kw) /\
  snd (with_default_factory "code" Code_validator Code_factory kw w) = w.
Proof.
  unfold with_default_factory, code_lines.
  destruct (lookup "code" kw) as [v|]; [|split; reflexivity].
  rewrite fmap_fst, fmap_snd.
  destruct v; cbn [Code_validator ret fst snd];
    try (split; [split; [reflexivity | discriminate] | reflexivity]);
    try (split; reflexivity).
  rewrite fmap_fst, fmap_snd.
  destruct (Code_fields_reports d w) as [Hr Hw].
  split; [|exact Hw]. now apply reports_at_loc, reports_map.
Qed.

Lemma createdAt_field (lax : value -> datetime_object + error_type) (kw : kwargs)
  (w : world) :
  reports (fst (with_default_factory "createdAt"
                  (pure_validator (datetime_validator lax))
                  (fmap Ok datetime_now) kw w))
          (field_lines "createdAt" (datetime_validator lax) kw) /\
  snd (with_default_factory "createdAt"
         (pure_validator (datetime_validator lax))
         (fmap Ok datetime_now) kw w) = tick w (clock_reads kw).
Proof.
  unfold with_default_factory, field_lines, clock_reads.
  destruct (lookup "createdAt" kw) as [v|].
  - split; [|now rewrite tick_0].
    cbn. apply reports_at_loc, datetime_validator_reports.
  - split; [reflexivity|]. unfold tick. cbn. now rewrite Nat.add_1_r.
Qed.

Lemma Chat_fields_reports (lax : value -> datetime_object + error_type) (kw : kwargs)
  (w : world) :
  reports (fst (Chat_fields lax kw w)) (Chat_lines lax kw) /\
  snd (Chat_fields lax kw w) =
  tick (advance w (16 * generated_ids kw)) (clock_reads kw).
Proof.
  unfold Chat_fields, Chat_lines.
  rewrite !ap_fst, !ap_snd. cbn [ret fst snd].
  pose proof (required_reports "userId" str_validator kw w
                str_validator_reports) as [Hu Hwu].
  rewrite Hwu.
  pose proof (messages_field kw w) as [Hm Hwm]. rewrite Hwm.
  set (w1 := advance w (16 * generated_ids kw)).
  pose proof (with_default_reports "name" str_validator "New Chat" kw w1
                str_validator_reports) as [Hn Hwn].
  rewrite Hwn.
  pose proof (code_field kw w1) as [Hc Hwc]. rewrite Hwc.
  pose proof (createdAt_field lax kw w1) as [Hd Hwd].
  split; [|exact Hwd].
  rewrite !app_assoc.
  repeat (apply reports_ap; [|assumption]).
  change (required_lines "userId" str_validator kw)
    with (List.app (@nil error) (required_lines "userId" str_validator kw)).
  apply reports_ap; [reflexivity | exact Hu].
Qed.

Lemma Chat_new_outcome (lax : value -> datetime_object + error_type) (kw : kwargs)
  (w : world) :
  match fst (Chat_new lax kw w) with
  | Return _ => Chat_lines lax kw = []
  | Raise e =>
      e = mkValidationError "Chat" (Chat_lines lax kw) /\
      Chat_lines lax kw <> []
  end.
Proof. apply raise_for_reports, Chat_fields_reports. Qed.

(** X5. Whether the construction of a [Chat] fails, and with which lines,
    is decided by the arguments alone, whatever the entropy source and
    the clock give: the lines are those of [userId], [messages], [name],
    [code] and [createdAt], in the order declared, and a line of the
    [i]-th message is located under [messages] and [i]. *)
Theorem Chat_report (lax : value -> datetime_object + error_type) (kw : kwargs) :
  (forall w : world,
      match fst (Chat_new lax kw w) with
      | Return _ => Chat_lines lax kw = []
      | Raise e =>
          e = mkValidationError "Chat" (Chat_lines lax kw) /\
          Chat_lines lax kw <> []
      end) /\
  (forall (w1 w2 : world) (e : ValidationError),
      fst (Chat_new lax kw w1) = Raise e ->
      fst (Chat_new lax kw w2) = Raise e).
Proof.
  split; [apply Chat_new_outcome|].
  intros w1 w2 e H1.
  pose proof (Chat_new_outcome lax kw w1) as Ha.
  pose proof (Chat_new_outcome lax kw w2) as Hb.
  rewrite H1 in Ha. destruct Ha as [-> Hne].
  destruct (fst (Chat_new lax kw w2)) as [c|e2].
  - now elim Hne.
  - destruct Hb as [-> _]. reflexivity.
Qed.

(** X6. The effects of the construction of a [Chat], whether it returns
    or raises: sixteen bytes of entropy for each item of [messages] that
    is a [dict] without [id], one reading of the clock when [createdAt]
    is left out, and nothing else. *)
Theorem Chat_effects (lax : value -> datetime_object + error_type) (kw : kwargs)
  (w : world) :
  snd (Chat_new lax kw w) =
  tick (advance w (16 * generated_ids kw)) (clock_reads kw).
Proof.
  unfold Chat_new, raise_for. rewrite fmap_snd.
  apply Chat_fields_reports.
Qed.

Lemma items_lines_nth (l : list value) (k i : nat) (v : value) (e : error) :
  nth_error l i = Some v ->
  In e (Message_value_lines v) ->
  In (mkError (err_type e) (Index (k + i) :: err_loc e)) (items_lines k l).
Proof.
  revert k i. induction l as [|x l IH]; intros k i Hn Hin.
  - now destruct i.
  - cbn [items_lines]. apply in_or_app. destruct i as [|i].
    + injection Hn as ->. left. rewrite Nat.add_0_r.
      unfold prefix_loc.
      now apply (in_map (fun e => mkError (err_type e) (Index k :: err_loc e))).
    + right. replace (k + S i)%nat with (S k + i)%nat by lia.
      now apply IH.
Qed.

(** X7. A [Chat] whose [i]-th message is turned down raises, and each
    line of that message is reported at [messages], [i], followed by the
    place of the line within the message. *)
Theorem Chat_message_error_located (lax : value -> datetime_object + error_type)
  (kw : kwargs) (l : list value) (i : nat) (v : value) (e : error)
  (w : world) :
  lookup "messages" kw = Some (VList l) ->
  nth_error l i = Some v ->
  In e (Message_value_lines v) ->
  exists es,
    fst (Chat_new lax kw w) = Raise (mkValidationError "Chat" es) /\
    In (mkError (err_type e) (Field "messages" :: Index i :: err_loc e)) es.
Proof.
  intros Hl Hn Hin.
  assert (Hc : In (mkError (err_type e)
                     (Field "messages" :: Index i :: err_loc e))
                  (Chat_lines lax kw)).
  { unfold Chat_lines. apply in_or_app. right. apply in_or_app. left.
    unfold messages_lines. rewrite Hl.
    pose proof (items_lines_nth l 0 i v e Hn Hin) as H.
    apply (in_map (fun e => mkError (err_type e)
                              (Field "messages" :: err_loc e))) in H.
    exact H. }
  exists (Chat_lines lax kw). split; [|exact Hc].
  pose proof (Chat_new_outcome lax kw w) as H.
  destruct (fst (Chat_new lax kw w)) as [c|e'].
  - rewrite H in Hc. elim Hc.
  - now destruct H as [-> _].
Qed.

(** ** Messages given by their content *)

Lemma validate_items_drafted (ss : list string) (i j : nat) (w : world) :
  validate_items Message_validator i (map content_only ss)
                 (advance w (16 * j)) =
  (Ok (drafted w j ss), advance w (16 * (j + List.length ss))).
Proof.
  revert i j. induction ss as [|s ss IH]; intros i j.
  - cbn [map validate_items drafted List.length]. unfold ret.
    now rewrite Nat.add_0_r.
  - cbn [map validate_items drafted List.length].
    eapply ap_ok; [reflexivity|].
    fold (advance (advance w (16 * j)) 16).
    rewrite advance_advance.
    replace (16 * j + 16)%nat with (16 * S j)%nat by lia.
    rewrite IH. do 2 f_equal. lia.
Qed.

Lemma drafted_content (w : world) (j : nat) (ss : list string) :
  map content (drafted w j ss) = ss.
Proof.
  revert j. induction ss as [|s ss IH]; intros j; cbn [drafted map content];
    [|rewrite IH]; reflexivity.
Qed.

Lemma draw_at_length (w : world) (j : nat) :
  List.length (draw_at w j) = 16%nat.
Proof. apply os_urandom_length. Qed.

Lemma drafted_shape (w : world) (j : nat) (ss : list string) :
  Forall (fun m => type m = USER /\ String.length (id m) = 32%nat /\
                   string_forall is_hex_digit (id m) = true)
         (drafted w j ss).
Proof.
  revert j. induction ss as [|s ss IH]; intros j; cbn [drafted];
    constructor; auto.
  cbn [type id]. split; [reflexivity|].
  apply UUID4_hex_shape, draw_at_length.
Qed.


(** ** Defaults field by field *)

Lemma result_ap_Ok_inv {A B : Type} (rf : result (A -> B)) (ra : result A)
  (b : B) :
  result_ap rf ra = Ok b -> exists f a, rf = Ok f /\ ra = Ok a /\ b = f a.
Proof.
  destruct rf as [f|], ra as [a|]; cbn; try discriminate.
  intros [= <-]. eauto.
Qed.

Lemma Code_fields_any_world (d : kwargs) (w1 w2 : world) :
  fst (Code_fields d w1) = fst (Code_fields d w2).
Proof.
  unfold Code_fields. rewrite !ap_fst, !ap_snd. cbn [ret fst snd].
  unfold with_default.
  destruct (lookup "html" d), (lookup "css" d), (lookup "js" d); reflexivity.
Qed.

(** X9. In a [Chat] that is returned, every field stands on its own: a
    field left out holds its default whatever else is supplied ([[]],
    "New Chat", an empty plain [Code], the naive reading of the clock),
    and a field supplied holds the value validated from what was
    supplied: the text of [userId] and [name], the messages validated in
    order from the items of [messages] (the instances themselves when
    instances are given), the [Code] object given or the plain [Code]
    built from a [dict], the datetime of [createdAt]. *)
Theorem Chat_field_by_field (lax : value -> datetime_object + error_type)
  (kw : kwargs) (w : world) (c : Chat) :
  fst (Chat_new lax kw w) = Return c ->
  (forall v, lookup "userId" kw = Some v -> str_validator v = Ok (userId c)) /\
  (forall v, lookup "messages" kw = Some v ->
             fst (list_validator Message_validator v w) = Ok (messages c)) /\
  (forall ms, lookup "messages" kw = Some (VList (map VMessage ms)) ->
              messages c = ms) /\
  (lookup "messages" kw = None -> messages c = []) /\
  (forall v, lookup "name" kw = Some v -> str_validator v = Ok (name c)) /\
  (lookup "name" kw = None -> name c = "New Chat") /\
  (forall o, lookup "code" kw = Some (VCode o) -> code c = o) /\
  (forall d, lookup "code" kw = Some (VDict d) ->
             exists k, code c = PlainCode k /\ fst (Code_new d w) = Return k) /\
  (lookup "code" kw = None -> code c = PlainCode (mkCode "" "" "")) /\
  (forall v, lookup "createdAt" kw = Some v ->
             datetime_validator lax v = Ok (createdAt c)) /\
  (lookup "createdAt" kw = None ->
   createdAt c = Naive (clock w (readings w))).
Proof.
  unfold Chat_new, raise_for. rewrite fmap_fst.
  destruct (fst (Chat_fields lax kw w)) as [c'|] eqn:E; [|discriminate].
  intros [= ->].
  unfold Chat_fields in E. rewrite !ap_fst, !ap_snd in E.
  cbn [ret fst snd] in E.
  rewrite (proj2 (required_reports "userId" str_validator kw w
                    str_validator_reports)) in E.
  rewrite (proj2 (messages_field kw w)) in E.
  set (w1 := advance w (16 * generated_ids kw)) in E.
  rewrite (proj2 (with_default_reports "name" str_validator "New Chat" kw w1
                    str_validator_reports)) in E.
  rewrite (proj2 (code_field kw w1)) in E.
  apply result_ap_Ok_inv in E as (f5 & d & E & Hd & ->).
  apply result_ap_Ok_inv in E as (f4 & o & E & Ho & ->).
  apply result_ap_Ok_inv in E as (f3 & n & E & Hn & ->).
  apply result_ap_Ok_inv in E as (f2 & ms & E & Hms & ->).
  apply result_ap_Ok_inv in E as (f1 & u & E & Hu & ->).
  injection E as <-. cbn [userId messages name code createdAt].
  unfold required in Hu. unfold with_default in Hms, Hn.
  unfold with_default_factory in Ho, Hd.
  assert (Hmsv : forall v, lookup "messages" kw = Some v ->
                   fst (list_validator Message_validator v w) = Ok ms).
  { intros v Hl. rewrite Hl, fmap_fst in Hms.
    destruct (fst (list_validator Message_validator v w)); cbn in Hms;
      congruence. }
  repeat split.
  - intros v Hl. rewrite Hl in Hu. cbn in Hu.
    destruct (str_validator v); cbn in Hu; congruence.
  - exact Hmsv.
  - intros ms' Hl. specialize (Hmsv _ Hl). cbn [list_validator] in Hmsv.
    rewrite validate_items_instances in Hmsv. cbn in Hmsv. congruence.
  - intros Hl. rewrite Hl in Hms. cbn in Hms. congruence.
  - intros v Hl. rewrite Hl in Hn. cbn in Hn.
    destruct (str_validator v); cbn in Hn; congruence.
  - intros Hl. rewrite Hl in Hn. cbn in Hn. congruence.
  - intros o' Hl. rewrite Hl in Ho. cbn in Ho. congruence.
  - intros d' Hl. rewrite Hl, fmap_fst in Ho. cbn [Code_validator] in Ho.
    rewrite fmap_fst in Ho.
    unfold Code_new, raise_for. rewrite fmap_fst.
    rewrite (Code_fields_any_world d' w w1).
    destruct (fst (Code_fields d' w1)) as [k|]; cbn in Ho; [|discriminate].
    exists k. split; [congruence | reflexivity].
  - intros Hl. rewrite Hl in Ho. cbn in Ho. congruence.
  - intros v Hl. rewrite Hl in Hd. cbn in Hd.
    destruct (datetime_validator lax v); cbn in Hd; congruence.
  - intros Hl. rewrite Hl in Hd. cbn in Hd. congruence.
Qed.

(** ** Keys that are not fields *)

(** X10. A model looks up its declared fields and nothing else: two sets
    of arguments that supply the same for each field of a class give the
    same outcome and the same effects, so a key that is no field is
    ignored, and the order of the arguments does not matter. *)
Theorem outcome_depends_on_fields (lax : value -> datetime_object + error_type)
  (kw1 kw2 : kwargs) (w : world) :
  (same_on ["input"] kw1 kw2 -> Prompt_new kw1 w = Prompt_new kw2 w) /\
  (same_on ["id"; "type"; "content"] kw1 kw2 ->
   Message_new kw1 w = Message_new kw2 w) /\
  (same_on ["html"; "css"; "js"] kw1 kw2 -> Code_new kw1 w = Code_new kw2 w) /\
  (same_on ["html"; "css"; "js"; "explanation"] kw1 kw2 ->
   Response_new kw1 w = Response_new kw2 w) /\
  (same_on ["userId"; "messages"; "name"; "code"; "createdAt"] kw1 kw2 ->
   Chat_new lax kw1 w = Chat_new lax kw2 w).
Proof.
  repeat split; intros H.
  - unfold Prompt_new, Prompt_fields, required.
    now rewrite (H "input") by (cbn; tauto).
  - unfold Message_new, Message_fields, with_default, with_default_factory.
    now rewrite (H "id"), (H "type"), (H "content") by (cbn; tauto).
  - unfold Code_new, Code_fields, with_default.
    now rewrite (H "html"), (H "css"), (H "js") by (cbn; tauto).
  - unfold Response_new, Response_fields, Code_fields, with_default.
    now rewrite (H "html"), (H "css"), (H "js"), (H "explanation")
      by (cbn; tauto).
  - unfold Chat_new, Chat_fields, required, with_default,
      with_default_factory.
    now rewrite (H "userId"), (H "messages"), (H "name"), (H "code"),
      (H "createdAt") by (cbn; tauto).
Qed.

(** ** The version and the variant of the identifier *)

Lemma get_zero_padded (base : Z) (w k : nat) (n : Z) :
  (k < w)%nat ->
  String.get k (zero_padded base w n) =
  Some (digit_of ((n / base ^ Z.of_nat (w - 1 - k)) mod base)).
Proof.
  revert k. induction w as [|w IH]; intros k Hk; [lia|].
  cbn [zero_padded String.get]. destruct k as [|k].
  - now replace (S w - 1 - 0)%nat with w by lia.
  - rewrite IH by lia. now replace (S w - 1 - S k)%nat with (w - 1 - k)%nat by lia.
Qed.

Lemma nibble_as_bits (x : Z) (k : Z) :
  0 <= k -> (x / 2 ^ k) mod 16 = Z.land (Z.shiftr x k) 15.
Proof.
  intros Hk. rewrite Z.shiftr_div_pow2 by exact Hk.
  change 15 with (Z.ones 4). rewrite Z.land_ones by lia. reflexivity.
Qed.

Lemma UUID4_version_nibble (r : Z) :
  (UUID_set_version r 4 / 16 ^ 19) mod 16 = 4.
Proof.
  change (16 ^ 19) with (2 ^ 76). rewrite nibble_as_bits by lia.
  rewrite UUID_set_version_4, Z.shiftr_lor, Z.shiftr_land.
  rewrite Z.land_lor_distr_l, <- Z.land_assoc.
  change (Z.land (Z.shiftr UUID4_random_bits 76) 15) with 0.
  change (Z.land (Z.shiftr UUID4_fixed_bits 76) 15) with 4.
  now rewrite Z.land_0_r.
Qed.

Lemma UUID4_variant_nibble (r : Z) :
  8 <= (UUID_set_version r 4 / 16 ^ 15) mod 16 <= 11.
Proof.
  change (16 ^ 15) with (2 ^ 60). rewrite nibble_as_bits by lia.
  rewrite UUID_set_version_4, Z.shiftr_lor, Z.shiftr_land.
  rewrite Z.land_lor_distr_l, <- Z.land_assoc.
  change (Z.land (Z.shiftr UUID4_random_bits 60) 15) with (Z.ones 2).
  change (Z.land (Z.shiftr UUID4_fixed_bits 60) 15) with 8.
  rewrite Z.land_ones by lia.
  pose proof (Z.mod_pos_bound (Z.shiftr r 60) (2 ^ 2) eq_refl) as H.
  change (2 ^ 2) with 4 in *.
  assert (C : Z.shiftr r 60 mod 4 = 0 \/ Z.shiftr r 60 mod 4 = 1 \/
              Z.shiftr r 60 mod 4 = 2 \/ Z.shiftr r 60 mod 4 = 3) by lia.
  destruct C as [-> | [-> | [-> | ->]]]; cbn; lia.
Qed.

(** X11. A generated identifier is the text of a version-4, RFC 4122
    UUID: whenever [id] is left out and the message is returned, its
    thirteenth character is "4" and its seventeenth is one of "8", "9",
    "a", "b". *)
Theorem Message_id_version_4 (kw : kwargs) (w : world) (m : Message) :
  lookup "id" kw = None ->
  fst (Message_new kw w) = Return m ->
  id m = UUID4_hex (first_draw w) /\
  String.get 12 (id m) = Some "4"%char /\
  (String.get 16 (id m) = Some "8"%char \/
   String.get 16 (id m) = Some "9"%char \/
   String.get 16 (id m) = Some "a"%char \/
   String.get 16 (id m) = Some "b"%char).
Proof.
  intros Hl. unfold Message_new, raise_for. rewrite fmap_fst.
  unfold Message_fields. rewrite !ap_fst. cbn [ret fst snd].
  unfold with_default_factory. rewrite Hl.
  change (fst (fmap Ok uuid4_hex w)) with (@Ok string (UUID4_hex (first_draw w))).
  destruct (fst (with_default "type" _ _ kw _)) as [t|];
    destruct (fst (with_default "content" _ _ kw _)) as [c|];
    cbn [result_ap]; intros [= <-]. cbn [id].
  split; [reflexivity|].
  rewrite (UUID4_hex_padded (first_draw w) (os_urandom_length 16 w)).
  rewrite !get_zero_padded by lia.
  change (Z.of_nat (32 - 1 - 12)) with 19. change (Z.of_nat (32 - 1 - 16)) with 15.
  rewrite UUID4_version_nibble. split; [reflexivity|].
  pose proof (UUID4_variant_nibble (int_from_bytes (first_draw w))) as H.
  set (n := (UUID_set_version (int_from_bytes (first_draw w)) 4 / 16 ^ 15) mod 16)
    in *.
  assert (C : n = 8 \/ n = 9 \/ n = 10 \/ n = 11) by lia.
  destruct C as [-> | [-> | [-> | ->]]]; cbn; tauto.
Qed.

(** ** The order of the text of a datetime *)

Lemma compare_append (a1 a2 b1 b2 : string) :
  String.length a1 = String.length a2 ->
  String.compare (a1 ++ b1) (a2 ++ b2) =
  lex (String.compare a1 a2) (String.compare b1 b2).
Proof.
  revert a2. induction a1 as [|c1 a1 IH]; intros [|c2 a2] Hl;
    try discriminate Hl; [reflexivity|].
  cbn [append String.compare]. injection Hl as Hl.
  destruct (Ascii.compare c1 c2); cbn [lex]; [now apply IH | | ]; reflexivity.
Qed.

Lemma digit_of_compare (a b : Z) :
  0 <= a < 16 -> 0 <= b < 16 ->
  Ascii.compare (digit_of a) (digit_of b) = (a ?= b).
Proof. intros Ha Hb. each_digit a Ha; each_digit b Hb; reflexivity. Qed.

Lemma compare_weighted (p d1 d2 r1 r2 : Z) :
  0 <= r1 < p -> 0 <= r2 < p ->
  (d1 * p + r1 ?= d2 * p + r2) = lex (d1 ?= d2) (r1 ?= r2).
Proof.
  intros H1 H2. destruct (Z.compare_spec d1 d2) as [->|Hlt|Hgt]; cbn [lex].
  - apply Z.add_compare_mono_l.
  - apply Z.compare_lt_iff. nia.
  - apply Z.compare_gt_iff. nia.
Qed.

Lemma compare_zero_padded (w : nat) (n1 n2 : Z) :
  String.compare (zero_padded 10 w n1) (zero_padded 10 w n2) =
  (n1 mod 10 ^ Z.of_nat w ?= n2 mod 10 ^ Z.of_nat w).
Proof.
  induction w as [|w IH].
  - now rewrite !Z.mod_1_r.
  - cbn [zero_padded String.compare].
    assert (Hp : 0 < 10 ^ Z.of_nat w) by (apply Z.pow_pos_nonneg; lia).
    rewrite digit_of_compare
      by (split; [apply Z.mod_pos_bound; lia |
                  pose proof (Z.mod_pos_bound (n1 / 10 ^ Z.of_nat w) 10 eq_refl);
                  pose proof (Z.mod_pos_bound (n2 / 10 ^ Z.of_nat w) 10 eq_refl);
                  lia]).
    rewrite !mod_pow_succ by lia.
    rewrite compare_weighted by (apply Z.mod_pos_bound; exact Hp).
    rewrite IH. unfold lex.
    destruct (_ mod 10 ?= _ mod 10); reflexivity.
Qed.

Lemma compare_format (w : nat) (n1 n2 : Z) :
  (1 <= w)%nat -> 0 <= n1 < 10 ^ Z.of_nat w -> 0 <= n2 < 10 ^ Z.of_nat w ->
  String.compare (format_int 10 w n1) (format_int 10 w n2) = (n1 ?= n2).
Proof.
  intros Hw H1 H2. rewrite !format_int_in_width by lia.
  rewrite compare_zero_padded, !Z.mod_small by lia. reflexivity.
Qed.

Lemma format_length (w : nat) (n : Z) :
  (1 <= w)%nat -> 0 <= n < 10 ^ Z.of_nat w ->
  String.length (format_int 10 w n) = w.
Proof.
  intros Hw Hn. rewrite format_int_in_width by lia.
  apply zero_padded_length.
Qed.

Lemma compare_fraction (us1 us2 : Z) :
  0 <= us1 < 1000000 -> 0 <= us2 < 1000000 ->
  String.compare
    (if us1 =? 0 then "" else "." ++ format_int 10 6 us1)
    (if us2 =? 0 then "" else "." ++ format_int 10 6 us2) = (us1 ?= us2).
Proof.
  intros H1 H2.
  destruct (Z.eqb_spec us1 0) as [->|N1], (Z.eqb_spec us2 0) as [->|N2].
  - reflexivity.
  - cbn [append String.compare]. symmetry. apply Z.compare_lt_iff. lia.
  - cbn [append String.compare]. symmetry. apply Z.compare_gt_iff. lia.
  - cbn [append String.compare].
    change (Ascii.compare "." ".") with Eq.
    apply compare_format; [lia | exact H1 | exact H2].
Qed.

Lemma datetime_ok_bounds (d : datetime) :
  datetime_ok d = true ->
  0 <= year d < 10000 /\ 0 <= month d < 100 /\ 0 <= day d < 100 /\
  0 <= hour d < 100 /\ 0 <= minute d < 100 /\ 0 <= second d < 100 /\
  0 <= microsecond d < 1000000.
Proof.
  intros H. unfold datetime_ok in H.
  repeat rewrite andb_true_iff in H.
  repeat match goal with
         | H : _ /\ _ |- _ => destruct H
         | H : (_ <=? _) = true |- _ => apply Z.leb_le in H
         | H : (_ <? _) = true |- _ => apply Z.ltb_lt in H
         end.
  pose proof (days_in_month_le (year d) (month d)). lia.
Qed.

(** X12. The text written for [createdAt] orders as the instants do: for
    two datetimes, comparing their texts character by character gives the
    comparison of the datetimes; in particular different datetimes have
    different texts. *)
Theorem isoformat_sorts_as_datetime (d1 d2 : datetime) :
  datetime_ok d1 = true -> datetime_ok d2 = true ->
  String.compare (isoformat d1) (isoformat d2) = datetime_compare d1 d2 /\
  (isoformat d1 = isoformat d2 -> d1 = d2).
Proof.
  intros Hok1 Hok2. split.
  - destruct (datetime_ok_bounds d1 Hok1) as (Hy1 & Hm1 & Hd1 & Hh1 & Hi1 & Hs1 & Hu1).
    destruct (datetime_ok_bounds d2 Hok2) as (Hy2 & Hm2 & Hd2 & Hh2 & Hi2 & Hs2 & Hu2).
    unfold isoformat, datetime_compare.
    repeat (rewrite compare_append
              by (rewrite ?format_length; reflexivity || lia)).
    rewrite !compare_format by (reflexivity || lia).
    rewrite compare_fraction by lia.
    reflexivity.
  - intros E.
    pose proof (parse_isoformat_isoformat d1 Hok1) as P1.
    pose proof (parse_isoformat_isoformat d2 Hok2) as P2.
    rewrite E in P1. congruence.
Qed.

(* ================================================================== *)
(** * Examples of the further properties                               *)
(* ================================================================== *)

(** X3 at [Message(id="abc")]. *)
Lemma Message_id_supplied_example :
  fst (Message_new [("id", VStr "abc")] counting_world) =
    Return (mkMessage "abc" USER "") /\
  id (mkMessage "abc" USER "") = "abc".
Proof.
  split; [reflexivity|].
  apply (proj2 (Message_id_generated_when_omitted
                  [("id", VStr "abc")] counting_world)
           "abc" (mkMessage "abc" USER "")); reflexivity.
Defined.

(** X4 at [Response(html="<p>", explanation="done")]. *)
Lemma Response_Code_part_example :
  fst (Code_new [("html", VStr "<p>"); ("explanation", VStr "done")]
                stuck_world) =
  Return (mkCode "<p>" "" "").
Proof.
  destruct (Response_extends_Code
              [("html", VStr "<p>"); ("explanation", VStr "done")]
              stuck_world) as (_ & H & _).
  apply (H (mkResponse (mkCode "<p>" "" "") "done")). reflexivity.
Defined.

(** X5 at [Chat()], in two worlds. *)
Lemma Chat_report_example :
  fst (Chat_new no_lax [] counting_world) =
  Raise (mkValidationError "Chat" [mkError missing [Field "userId"]]).
Proof.
  apply (proj2 (Chat_report no_lax []) stuck_world counting_world).
  reflexivity.
Defined.

(** X7 at a chat whose second message has a number as [id]. *)
Lemma Chat_message_error_located_example :
  exists es,
    fst (Chat_new no_lax
           [("userId", VStr "u1");
            ("messages", VList [VDict []; VDict [("id", VInt 3)]])]
           stuck_world) = Raise (mkValidationError "Chat" es) /\
    In (mkError string_type [Field "messages"; Index 1; Field "id"]) es.
Proof.
  apply (Chat_message_error_located no_lax
           [("userId", VStr "u1");
            ("messages", VList [VDict []; VDict [("id", VInt 3)]])]
           [VDict []; VDict [("id", VInt 3)]] 1 (VDict [("id", VInt 3)])
           (mkError string_type [Field "id"]) stuck_world).
  - reflexivity.
  - reflexivity.
  - simpl. auto.
Defined.

(** X9 at [Chat(userId="u1", name="Plans", code={"html": "<p>"})]. *)
Lemma Chat_field_by_field_example :
  fst (Chat_new no_lax
         [("userId", VStr "u1"); ("name", VStr "Plans");
          ("code", VDict [("html", VStr "<p>")])] ticking_world) =
    Return (mkChat "u1" [] "Plans" (PlainCode (mkCode "<p>" "" ""))
                   (Naive (mkDatetime 2024 5 6 12 0 7 0))) /\
  str_validator (VStr "Plans") = Ok "Plans" /\
  (exists k, PlainCode (mkCode "<p>" "" "") = PlainCode k /\
             fst (Code_new [("html", VStr "<p>")] ticking_world) = Return k) /\
  Naive (mkDatetime 2024 5 6 12 0 7 0) =
    Naive (clock ticking_world (readings ticking_world)).
Proof.
  split; [reflexivity|].
  destruct (Chat_field_by_field no_lax
              [("userId", VStr "u1"); ("name", VStr "Plans");
               ("code", VDict [("html", VStr "<p>")])] ticking_world
              (mkChat "u1" [] "Plans" (PlainCode (mkCode "<p>" "" ""))
                      (Naive (mkDatetime 2024 5 6 12 0 7 0)))
              eq_refl) as (_ & _ & _ & _ & Hn & _ & _ & Hc & _ & _ & Hd).
  split; [apply (Hn (VStr "Plans")); reflexivity|].
  split; [apply (Hc [("html", VStr "<p>")]); reflexivity|].
  apply Hd; reflexivity.
Defined.

(** X10 at a [Chat] called with a key that is no field. *)
Lemma Chat_unknown_key_example :
  Chat_new no_lax [("theme", VStr "dark"); ("userId", VStr "u1")] stuck_world =
  Chat_new no_lax [("userId", VStr "u1")] stuck_world.
Proof.
  destruct (outcome_depends_on_fields no_lax
              [("theme", VStr "dark"); ("userId", VStr "u1")]
              [("userId", VStr "u1")] stuck_world) as (_ & _ & _ & _ & H).
  apply H. intros n Hin. simpl in Hin.
  destruct Hin as [<-|[<-|[<-|[<-|[<-|[]]]]]]; reflexivity.
Defined.

(** X11 at [Message()] in the world whose entropy counts up. *)
Lemma Message_id_version_4_example :
  String.get 12 "000102030405460788090a0b0c0d0e0f" = Some "4"%char.
Proof.
  apply (Message_id_version_4 [] counting_world
           (mkMessage "000102030405460788090a0b0c0d0e0f" USER "")).
  - reflexivity.
  - vm_compute. reflexivity.
Defined.

(** X12 at noon and one microsecond past noon. *)
Lemma isoformat_sorts_example :
  String.compare (isoformat noon)
                 (isoformat (mkDatetime 2024 5 6 12 0 0 1)) = Lt.
Proof.
  apply (proj1 (isoformat_sorts_as_datetime noon
                  (mkDatetime 2024 5 6 12 0 0 1) eq_refl eq_refl)).
Defined.
